(** * motile-plugin: parameter-to-solver glue and widget plumbing

    A shallow embedding of the plugin's own code:
    - [motile_solver.py]: [construct_solver] and [solve];
    - [_motile_widget.py]: parameter spin boxes, enable boxes, layer
      selection, run saving and loading, [solve_with_motile];
    - [widgets/params_editor.py]: the optional parameter rows;
    - [widgets/run_editor.py]: layer selection and [get_run].

    The optimisation library (motile, motile_toolbox), numpy, and the GUI
    toolkit are dependencies.  Their entry points appear as section
    variables or as small state machines that record what the plugin asks
    of them. *)

From Stdlib Require Import ZArith QArith Ascii String List Bool Lia.
From stdpp Require Import base option list strings gmap.
Import ListNotations.

Local Open Scope string_scope.
Local Open Scope list_scope.

(** ** Python values held by a parameter field

    Every field of a [SolverParams] object is a Python attribute: it holds
    a number or [None].  Numbers are only stored, passed on and compared
    for equality, so a rational stands for the [int] or [float]. *)

Definition value := option Q.

Definition is_not_None {A} (v : option A) : bool :=
  match v with Some _ => true | None => false end.

(** ** The parameter model

    The class declaration lives in [solver_params.py]; the fields are
    those named by [construct_solver], [solve] and the widget's
    [param_categories].  No field is assumed to be non-[None]: the widget
    binds [partial(solver_params.__setattr__, param_name, None)] to each
    of its spin boxes, the offsets included. *)

Record SolverParams := mkSolverParams {
  max_edge_distance : value;
  max_children : value;
  max_parents : value;
  appear_cost : value;
  disappear_cost : value;
  division_cost : value;
  merge_cost : value;
  distance_weight : value;
  distance_offset : value;
  iou_weight : value;
  iou_offset : value
}.

(** The names under which the widgets bind a control to a field:
    [param_categories] in [_motile_widget.py], with ["distance"] and
    ["iou"] expanded to their [_weight] and [_offset] fields. *)
Module Param.

Inductive name :=
| max_edge_distance | max_children | max_parents
| appear_cost | disappear_cost | division_cost | merge_cost
| distance_weight | distance_offset | iou_weight | iou_offset.

Definition to_string (n : name) : string :=
  match n with
  | max_edge_distance => "max_edge_distance"
  | max_children => "max_children"
  | max_parents => "max_parents"
  | appear_cost => "appear_cost"
  | disappear_cost => "disappear_cost"
  | division_cost => "division_cost"
  | merge_cost => "merge_cost"
  | distance_weight => "distance_weight"
  | distance_offset => "distance_offset"
  | iou_weight => "iou_weight"
  | iou_offset => "iou_offset"
  end.

End Param.

#[global] Instance Param_name_eq_dec : EqDecision Param.name.
Proof. solve_decision. Defined.

(** [solver_params.__getattribute__(param_name)] *)
Definition getattr (param_name : Param.name) (p : SolverParams) : value :=
  match param_name with
  | Param.max_edge_distance => max_edge_distance p
  | Param.max_children => max_children p
  | Param.max_parents => max_parents p
  | Param.appear_cost => appear_cost p
  | Param.disappear_cost => disappear_cost p
  | Param.division_cost => division_cost p
  | Param.merge_cost => merge_cost p
  | Param.distance_weight => distance_weight p
  | Param.distance_offset => distance_offset p
  | Param.iou_weight => iou_weight p
  | Param.iou_offset => iou_offset p
  end.

(** [solver_params.__setattr__(param_name, v)] *)
Definition setattr (param_name : Param.name) (v : value) (p : SolverParams)
  : SolverParams :=
  let '(mkSolverParams a b c d e f g h i j k) := p in
  match param_name with
  | Param.max_edge_distance => mkSolverParams v b c d e f g h i j k
  | Param.max_children => mkSolverParams a v c d e f g h i j k
  | Param.max_parents => mkSolverParams a b v d e f g h i j k
  | Param.appear_cost => mkSolverParams a b c v e f g h i j k
  | Param.disappear_cost => mkSolverParams a b c d v f g h i j k
  | Param.division_cost => mkSolverParams a b c d e v g h i j k
  | Param.merge_cost => mkSolverParams a b c d e f v h i j k
  | Param.distance_weight => mkSolverParams a b c d e f g v i j k
  | Param.distance_offset => mkSolverParams a b c d e f g h v j k
  | Param.iou_weight => mkSolverParams a b c d e f g h i v k
  | Param.iou_offset => mkSolverParams a b c d e f g h i j v
  end.

(** ** Objects and references

    A [SolverParams] object is shared by reference: the widget, its spin
    boxes and a run may hold the same object.  The store maps a reference
    to the object's current fields; a new object gets the next reference. *)

Abbreviation ref := nat.
Abbreviation heap := (list SolverParams).

Definition alloc (p : SolverParams) (h : heap) : ref * heap :=
  (length h, h ++ [p]).

(** [obj.__setattr__(param_name, v)] through a reference *)
Definition store_attr (r : ref) (param_name : Param.name) (v : value) (h : heap)
  : heap :=
  match h !! r with
  | Some p => <[r := setattr param_name v p]> h
  | None => h
  end.

(** [SolverParams.copy()]: a new object with the same field values *)
Definition copy (r : ref) (h : heap) : option (ref * heap) :=
  match h !! r with
  | Some p => Some (alloc p h)
  | None => None
  end.

(** ** Exceptions and arrays *)

Inductive exn := KeyError | AxisError | UnboundLocalError | FileNotFoundError.

Inductive result (A : Type) :=
| Ok (a : A)
| Raise (e : exn).
Arguments Ok {A} a.
Arguments Raise {A} e.

(** A numpy array: its shape and its elements in row-major order. *)
Record ndarray := mk_ndarray {
  shape : list nat;
  flat : list Z
}.

(** [numpy.expand_dims(a, axis)] for an axis counted from the front: the
    axis must name a position of the result, which has one dimension more. *)
Definition expand_dims (a : ndarray) (axis : nat) : result ndarray :=
  if (axis <=? length (shape a))%nat
  then Ok (mk_ndarray (take axis (shape a) ++ 1%nat :: drop axis (shape a)) (flat a))
  else Raise AxisError.

(** ** [motile_solver.py] *)

Module MotileSolver.

(** Attribute names of the candidate graph ([motile_toolbox]). *)
Inductive NodeAttr := TIME.
Inductive EdgeAttr := DISTANCE | IOU.

(** The constraint and cost objects the plugin constructs.  An argument
    is the Python value handed to the constructor, [None] included. *)
Inductive Constraint :=
| MaxChildren (max_children : value)
| MaxParents (max_parents : value).

Inductive Cost :=
| Appear (constant : value)
| Disappear (constant : value)
| Split (constant : value)
| Merge (constant : value)
| EdgeSelection (weight : value) (attribute : EdgeAttr) (constant : value).

(** The arguments a cost constructor received. *)
Definition cost_arguments (c : Cost) : list value :=
  match c with
  | Appear k | Disappear k | Split k | Merge k => [k]
  | EdgeSelection w _ k => [w; k]
  end.

Section Solver.
Context {DiGraph : Type}.

Record TrackGraph := mkTrackGraph {
  nx_graph : DiGraph;
  frame_attribute : NodeAttr
}.

(** A solver is what has been registered with it, in order.  A cost is
    registered with the [name] keyword it was given, if any. *)
Record Solver := mkSolver {
  graph : TrackGraph;
  constraints : list Constraint;
  costs : list (Cost * option string)
}.

Definition new_Solver (g : TrackGraph) : Solver := mkSolver g [] [].

Definition add_constraints (s : Solver) (c : Constraint) : Solver :=
  mkSolver (graph s) (constraints s ++ [c]) (costs s).

Definition add_costs (s : Solver) (c : Cost) (name : option string) : Solver :=
  mkSolver (graph s) (constraints s) (costs s ++ [(c, name)]).

Definition construct_solver (cand_graph : DiGraph) (solver_params : SolverParams)
  : Solver :=
  let solver := new_Solver (mkTrackGraph cand_graph TIME) in
  let solver := add_constraints solver (MaxChildren (max_children solver_params)) in
  let solver := add_constraints solver (MaxParents (max_parents solver_params)) in
  let solver :=
    if is_not_None (appear_cost solver_params)
    then add_costs solver (Appear (appear_cost solver_params)) None
    else solver in
  let solver :=
    if is_not_None (disappear_cost solver_params)
    then add_costs solver (Disappear (disappear_cost solver_params)) None
    else solver in
  let solver :=
    if is_not_None (division_cost solver_params)
    then add_costs solver (Split (division_cost solver_params)) None
    else solver in
  let solver :=
    if is_not_None (merge_cost solver_params)
    then add_costs solver (Merge (merge_cost solver_params)) None
    else solver in
  let solver :=
    if is_not_None (distance_weight solver_params)
    then add_costs solver
           (EdgeSelection (distance_weight solver_params) DISTANCE
                          (distance_offset solver_params))
           (Some "distance")
    else solver in
  let solver :=
    if is_not_None (iou_weight solver_params)
    then add_costs solver
           (EdgeSelection (iou_weight solver_params) IOU
                          (iou_offset solver_params))
           (Some "iou")
    else solver in
  solver.
End Solver.

Arguments TrackGraph : clear implicits.
Arguments Solver : clear implicits.

(** The cost terms as the specification lists them: one per optional
    parameter that is set, in the order of the source. *)
Definition cost_terms (p : SolverParams) : list (Cost * option string) :=
  (if is_not_None (appear_cost p) then [(Appear (appear_cost p), None)] else [])
  ++ (if is_not_None (disappear_cost p) then [(Disappear (disappear_cost p), None)] else [])
  ++ (if is_not_None (division_cost p) then [(Split (division_cost p), None)] else [])
  ++ (if is_not_None (merge_cost p) then [(Merge (merge_cost p), None)] else [])
  ++ (if is_not_None (distance_weight p)
      then [(EdgeSelection (distance_weight p) DISTANCE (distance_offset p),
             Some "distance")]
      else [])
  ++ (if is_not_None (iou_weight p)
      then [(EdgeSelection (iou_weight p) IOU (iou_offset p), Some "iou")]
      else []).

(** The argument a branch of [construct_solver] tests before it builds
    the cost: the constant of the four constant costs, the weight of an
    edge-selection cost. *)
Definition guarded_argument (c : Cost) : value :=
  match c with
  | Appear k | Disappear k | Split k | Merge k => k
  | EdgeSelection w _ _ => w
  end.

(** No cost registered with the solver was built from a [None]. *)
Definition no_None_passed {DiGraph} (s : Solver DiGraph) : Prop :=
  forall c name, In (c, name) (costs s) -> ~ In None (cost_arguments c).

Definition has_cost_named {DiGraph} (s : Solver DiGraph) (name : string) : Prop :=
  exists c, In (c, Some name) (costs s).

(** The class of a cost object. *)
Definition class_name (c : Cost) : string :=
  match c with
  | Appear _ => "Appear"
  | Disappear _ => "Disappear"
  | Split _ => "Split"
  | Merge _ => "Merge"
  | EdgeSelection _ _ _ => "EdgeSelection"
  end.

(** The name a cost is registered under: the [name] keyword of
    [add_costs], or the class name of the cost when none is given. *)
Definition registered_name (cn : Cost * option string) : string :=
  default (class_name (fst cn)) (snd cn).

(** The parameter a branch of [construct_solver] tests before it
    registers the cost. *)
Definition guard_of (c : Cost) : Param.name :=
  match c with
  | Appear _ => Param.appear_cost
  | Disappear _ => Param.disappear_cost
  | Split _ => Param.division_cost
  | Merge _ => Param.merge_cost
  | EdgeSelection _ DISTANCE _ => Param.distance_weight
  | EdgeSelection _ IOU _ => Param.iou_weight
  end.

(** The two offsets, which [construct_solver] reads without testing. *)
Definition is_offset (n : Param.name) : bool :=
  match n with
  | Param.distance_offset | Param.iou_offset => true
  | _ => false
  end.

(** *** Failures of the library

    [construct_solver] has no [raise] and no [try]: it fails where a
    library call it makes fails, and nowhere else.  A library call here is
    the construction of the solver over the track graph, or the
    construction of one constraint or cost together with its registration
    (for [Merge], together with its import). *)
Section LibraryFailures.
Context {DiGraph : Type}.

Inductive LibraryCall :=
| lib_Solver (cand_graph : DiGraph)
| lib_add_constraints (c : Constraint)
| lib_add_costs (c : Cost) (name : option string).

(** The calls on which the library raises. *)
Variable raises : LibraryCall -> bool.

(** The outcome of a call is its value, or the call that raised. *)
Definition lib {A} (call : LibraryCall) (a : A) : A + LibraryCall :=
  if raises call then inr call else inl a.

Definition and_then {A B} (m : A + LibraryCall) (k : A -> B + LibraryCall)
  : B + LibraryCall :=
  match m with
  | inl a => k a
  | inr call => inr call
  end.

(** [construct_solver], statement by statement, with the library free to
    raise at each call. *)
Definition construct_solver_or_raise (cand_graph : DiGraph)
  (solver_params : SolverParams) : Solver DiGraph + LibraryCall :=
  and_then (lib (lib_Solver cand_graph)
              (new_Solver (mkTrackGraph cand_graph TIME))) (fun solver =>
  and_then (lib (lib_add_constraints (MaxChildren (max_children solver_params)))
              (add_constraints solver (MaxChildren (max_children solver_params))))
    (fun solver =>
  and_then (lib (lib_add_constraints (MaxParents (max_parents solver_params)))
              (add_constraints solver (MaxParents (max_parents solver_params))))
    (fun solver =>
  and_then (if is_not_None (appear_cost solver_params)
            then lib (lib_add_costs (Appear (appear_cost solver_params)) None)
                   (add_costs solver (Appear (appear_cost solver_params)) None)
            else inl solver) (fun solver =>
  and_then (if is_not_None (disappear_cost solver_params)
            then lib (lib_add_costs (Disappear (disappear_cost solver_params)) None)
                   (add_costs solver (Disappear (disappear_cost solver_params)) None)
            else inl solver) (fun solver =>
  and_then (if is_not_None (division_cost solver_params)
            then lib (lib_add_costs (Split (division_cost solver_params)) None)
                   (add_costs solver (Split (division_cost solver_params)) None)
            else inl solver) (fun solver =>
  and_then (if is_not_None (merge_cost solver_params)
            then lib (lib_add_costs (Merge (merge_cost solver_params)) None)
                   (add_costs solver (Merge (merge_cost solver_params)) None)
            else inl solver) (fun solver =>
  and_then (if is_not_None (distance_weight solver_params)
            then lib (lib_add_costs
                        (EdgeSelection (distance_weight solver_params) DISTANCE
                           (distance_offset solver_params))
                        (Some "distance"))
                   (add_costs solver
                      (EdgeSelection (distance_weight solver_params) DISTANCE
                         (distance_offset solver_params))
                      (Some "distance"))
            else inl solver) (fun solver =>
  and_then (if is_not_None (iou_weight solver_params)
            then lib (lib_add_costs
                        (EdgeSelection (iou_weight solver_params) IOU
                           (iou_offset solver_params))
                        (Some "iou"))
                   (add_costs solver
                      (EdgeSelection (iou_weight solver_params) IOU
                         (iou_offset solver_params))
                      (Some "iou"))
            else inl solver) (fun solver =>
  inl solver))))))))).

(** The library calls behind a constructed solver, in order: the solver
    itself, then one call per constraint and per cost it carries. *)
Definition library_calls (cand_graph : DiGraph) (solver_params : SolverParams)
  : list LibraryCall :=
  lib_Solver cand_graph
  :: List.map lib_add_constraints
       (constraints (construct_solver cand_graph solver_params))
  ++ List.map (fun cn => lib_add_costs (fst cn) (snd cn))
       (costs (construct_solver cand_graph solver_params)).

(** No offset is [None] beside a weight that is set. *)
Definition offsets_set_with_weights (p : SolverParams) : Prop :=
  (distance_weight p <> None -> distance_offset p <> None)
  /\ (iou_weight p <> None -> iou_offset p <> None).

End LibraryFailures.

(** *** [solve]: the calls it makes, in order

    A computation returns its result together with the calls it made. *)
Section Solve.
Context {ndarray DiGraph ConflictSets Solution SelectedGraph : Type}.

(** [motile_toolbox.candidate_graph.get_candidate_graph] *)
Variable get_candidate_graph :
  ndarray -> value -> bool -> bool -> DiGraph * ConflictSets.
(** [motile.Solver.solve] *)
Variable Solver_solve : Solver DiGraph -> bool -> Solution.
(** [motile.Solver.get_selected_subgraph] *)
Variable get_selected_subgraph : Solver DiGraph -> Solution -> SelectedGraph.
(** [motile_toolbox.candidate_graph.graph_to_nx] *)
Variable graph_to_nx : SelectedGraph -> DiGraph.

Inductive Call :=
| call_get_candidate_graph
    (segmentation : ndarray) (max_edge_distance : value) (iou multihypo : bool)
| call_logger_debug
| call_construct_solver (cand_graph : DiGraph) (solver_params : SolverParams)
| call_time
| call_Solver_solve (solver : Solver DiGraph) (verbose : bool)
| call_logger_info
| call_get_selected_subgraph (solver : Solver DiGraph) (solution : Solution)
| call_graph_to_nx (solution_graph : SelectedGraph).

Definition Traced (A : Type) : Type := A * list Call.

Definition ret {A} (a : A) : Traced A := (a, []).

Definition bind {A B} (m : Traced A) (k : A -> Traced B) : Traced B :=
  let '(a, t1) := m in
  let '(b, t2) := k a in
  (b, t1 ++ t2).

Definition called {A} (c : Call) (a : A) : Traced A := (a, [c]).

Notation "x <- m ;; k" := (bind m (fun x => k))
  (at level 100, m at next level, right associativity).
Notation "m ;;; k" := (bind m (fun _ => k))
  (at level 100, right associativity).

(** Logging and the wall clock leave no value behind that the result
    depends on; the message text is not kept. *)
Definition is_diagnostic (c : Call) : bool :=
  match c with
  | call_logger_debug | call_logger_info | call_time => true
  | _ => false
  end.

Definition solve (solver_params : SolverParams) (segmentation : ndarray)
  : Traced DiGraph :=
  r <- called (call_get_candidate_graph segmentation
                 (max_edge_distance solver_params)
                 (is_not_None (iou_weight solver_params)) false)
              (get_candidate_graph segmentation
                 (max_edge_distance solver_params)
                 (is_not_None (iou_weight solver_params)) false) ;;
  let cand_graph := fst r in
  called call_logger_debug tt ;;;
  solver <- called (call_construct_solver cand_graph solver_params)
                   (construct_solver cand_graph solver_params) ;;
  called call_time tt ;;;
  solution <- called (call_Solver_solve solver true)
                     (Solver_solve solver true) ;;
  called call_time tt ;;;
  called call_logger_info tt ;;;
  solution_graph <- called (call_get_selected_subgraph solver solution)
                           (get_selected_subgraph solver solution) ;;
  solution_nx_graph <- called (call_graph_to_nx solution_graph)
                              (graph_to_nx solution_graph) ;;
  ret solution_nx_graph.
End Solve.

End MotileSolver.

(** ** The GUI toolkit and the viewer, as far as the plugin uses them *)

Module Qt.

(** A non-editable combo box: its entries and the current one.  Adding
    the first entry makes it current; no entry is current in an empty
    box, whose current text is empty. *)
Record QComboBox := mkQComboBox {
  items : list string;
  currentIndex : option nat
}.

Definition new_QComboBox : QComboBox := mkQComboBox [] None.

Definition addItem (text : string) (box : QComboBox) : QComboBox :=
  mkQComboBox (items box ++ [text])
    (match currentIndex box with
     | Some i => Some i
     | None => Some 0%nat
     end).

Definition clear (box : QComboBox) : QComboBox := mkQComboBox [] None.

Definition count (box : QComboBox) : nat := length (items box).

Definition currentText (box : QComboBox) : string :=
  match currentIndex box with
  | Some i => default "" (items box !! i)
  | None => ""
  end.

(** The user picks an entry. *)
Definition setCurrentIndex (i : nat) (box : QComboBox) : QComboBox :=
  if (i <? count box)%nat then mkQComboBox (items box) (Some i) else box.

End Qt.

Module Napari.

Inductive LayerType := Image | Labels | Points | Shapes | Tracks.

Record Layer := mkLayer {
  layer_type : LayerType;
  name : string;
  data : ndarray
}.

(** [isinstance(layer, Labels)] *)
Definition isinstance_Labels (layer : Layer) : bool :=
  match layer_type layer with
  | Labels => true
  | _ => false
  end.

(** The names of the [Labels] layers, in order. *)
Definition labels_names (layers : list Layer) : list string :=
  List.map name (List.filter isinstance_Labels layers).

(** [layers[key]] for a string key: the layer of that name, or [KeyError]. *)
Definition getitem (layers : list Layer) (key : string) : result Layer :=
  match List.find (fun layer => String.eqb (name layer) key) layers with
  | Some layer => Ok layer
  | None => Raise KeyError
  end.

End Napari.

(** ** [pathlib], as far as [_list_runs] uses it *)

Module Pathlib.

(** [name.rfind('.')] *)
Fixpoint rfind_dot (name : string) : option nat :=
  match name with
  | EmptyString => None
  | String c rest =>
      match rfind_dot rest with
      | Some i => Some (S i)
      | None => if Ascii.eqb c "."%char then Some 0%nat else None
      end
  end.

(** [PurePath.stem] of a final path component (CPython up to 3.13): the
    name without its last suffix; a leading or a trailing dot starts no
    suffix. *)
Definition stem (name : string) : string :=
  match rfind_dot name with
  | Some i =>
      if ((0 <? i)%nat && (i <? String.length name - 1)%nat)%bool
      then String.substring 0 i name
      else name
  | None => name
  end.

(** The name holds no dot. *)
Fixpoint dotless (name : string) : bool :=
  match name with
  | EmptyString => true
  | String c rest => negb (Ascii.eqb c "."%char) && dotless rest
  end.

End Pathlib.

(** ** [_motile_widget.py] *)

Module MotileWidget.
Import Qt Napari.

Section SpinBoxes.
(** The value a spin box keeps when asked to show [v]: the toolkit
    confines it to the range [[minimum, maximum]] and to the box's
    decimals.  Taken as given. *)
Variable qt_bound : Q -> Q -> Q -> Q.

(** [ParamSpinBox] / [ParamDoubleSpinBox] after [connect_to_param]: the
    object and the name it writes to are fixed when it is connected. *)
Record ParamSpinBox := mkParamSpinBox {
  sb_param_name : Param.name;
  sb_solver_params : ref;
  sb_minimum : Q;
  sb_maximum : Q;
  sb_enabled : bool;
  sb_value : Q
}.

(** The slot [partial(solver_params.__setattr__, param_name)] that
    [valueChanged], [enable_signal] and (with [None]) [disable_signal]
    are connected to. *)
Definition param_slot (sb : ParamSpinBox) (v : value) (h : heap) : heap :=
  store_attr (sb_solver_params sb) (sb_param_name sb) v h.

(** [BaseParamSpinBox.changeEvent] on [QEvent.EnabledChange] *)
Definition changeEvent (sb : ParamSpinBox) (h : heap) : heap :=
  if sb_enabled sb
  then param_slot sb (Some (sb_value sb)) h
  else param_slot sb None h.

(** [QWidget.setEnabled]: the change event is delivered only on a change. *)
Definition setEnabled (b : bool) (sb : ParamSpinBox) (h : heap)
  : ParamSpinBox * heap :=
  if Bool.eqb (sb_enabled sb) b then (sb, h)
  else
    let sb' := mkParamSpinBox (sb_param_name sb) (sb_solver_params sb)
                 (sb_minimum sb) (sb_maximum sb) b (sb_value sb) in
    (sb', changeEvent sb' h).

(** [QSpinBox.setValue]: [valueChanged] is emitted only on a change. *)
Definition setValue (v : Q) (sb : ParamSpinBox) (h : heap)
  : ParamSpinBox * heap :=
  let v' := qt_bound (sb_minimum sb) (sb_maximum sb) v in
  if Qeq_bool v' (sb_value sb) then (sb, h)
  else
    let sb' := mkParamSpinBox (sb_param_name sb) (sb_solver_params sb)
                 (sb_minimum sb) (sb_maximum sb) (sb_enabled sb) v' in
    (sb', param_slot sb' (Some v') h).

(** An enable control with the spin boxes it governs: an [EnableBox]
    beside one spin box, or a checkable [EnableGroup] around the weight
    and offset spin boxes.  The spin boxes of the data parameters have no
    enable control. *)
Record ParamGroup := mkParamGroup {
  enable_control : option bool;
  spinboxes : list ParamSpinBox
}.

(** The spin boxes all write to objects other than [r]. *)
Definition bound_elsewhere (r : ref) (sbs : list ParamSpinBox) : Prop :=
  Forall (fun sb => sb_solver_params sb <> r) sbs.

Fixpoint setEnabled_all (b : bool) (sbs : list ParamSpinBox) (h : heap)
  : list ParamSpinBox * heap :=
  match sbs with
  | [] => ([], h)
  | sb :: rest =>
      let '(sb', h1) := setEnabled b sb h in
      let '(rest', h2) := setEnabled_all b rest h1 in
      (sb' :: rest', h2)
  end.

(** [setChecked] on the enable control.  On a change of state
    [EnableBox._on_toggle] enables or disables its spin box; a checkable
    group box does the same to its children. *)
Definition setChecked (b : bool) (g : ParamGroup) (h : heap)
  : ParamGroup * heap :=
  match enable_control g with
  | None => (g, h)
  | Some checked =>
      if Bool.eqb checked b then (g, h)
      else
        let '(sbs, h') := setEnabled_all b (spinboxes g) h in
        (mkParamGroup (Some b) sbs, h')
  end.

(** [EnableBox._disable] and [EnableGroup._disable] *)
Definition _disable (g : ParamGroup) (h : heap) : ParamGroup * heap :=
  setChecked false g h.

(** [BaseParamSpinBox.update_value(param_name, solver_params)] of the
    [i]-th spin box of a group.  [update_none_signal] reaches the enable
    control's [_disable], if the group has one. *)
Definition update_value (i : nat) (solver_params : ref) (g : ParamGroup) (h : heap)
  : ParamGroup * heap :=
  match spinboxes g !! i, h !! solver_params with
  | Some sb, Some p =>
      match getattr (sb_param_name sb) p with
      | None => _disable g h
      | Some v =>
          let '(sb', h') := setValue v sb h in
          (mkParamGroup (enable_control g) (<[i := sb']> (spinboxes g)), h')
      end
  | _, _ => (g, h)
  end.

(** The user clicks the enable control. *)
Definition click_enable_control (g : ParamGroup) (h : heap) : ParamGroup * heap :=
  match enable_control g with
  | Some checked => setChecked (negb checked) g h
  | None => (g, h)
  end.

(** The user edits the [i]-th spin box; a disabled one takes no input. *)
Definition edit_value (i : nat) (v : Q) (g : ParamGroup) (h : heap)
  : ParamGroup * heap :=
  match spinboxes g !! i with
  | Some sb =>
      if sb_enabled sb then
        let '(sb', h') := setValue v sb h in
        (mkParamGroup (enable_control g) (<[i := sb']> (spinboxes g)), h')
      else (g, h)
  | None => (g, h)
  end.

(** The slots of [update_signal], in the order the spin boxes were
    connected. *)
Fixpoint update_values_from (i n : nat) (solver_params : ref)
  (g : ParamGroup) (h : heap) : ParamGroup * heap :=
  match n with
  | O => (g, h)
  | S n' =>
      let '(g1, h1) := update_value i solver_params g h in
      update_values_from (S i) n' solver_params g1 h1
  end.

Fixpoint update_groups (solver_params : ref) (gs : list ParamGroup) (h : heap)
  : list ParamGroup * heap :=
  match gs with
  | [] => ([], h)
  | g :: rest =>
      let '(g', h1) :=
        update_values_from 0 (length (spinboxes g)) solver_params g h in
      let '(rest', h2) := update_groups solver_params rest h1 in
      (g' :: rest', h2)
  end.

(** A row of [_ui_constant_costs]: a checked [EnableBox] beside an
    enabled spin box over [[0, 10000]] showing [shown]. *)
Definition constant_cost_row (param_name : Param.name) (solver_params : ref)
  (shown : Q) : ParamGroup :=
  mkParamGroup (Some true)
    [mkParamSpinBox param_name solver_params 0 10000 true shown].

(** A row of [_ui_data_specific_hyperparameters]: a spin box without an
    enable control. *)
Definition data_param_row (param_name : Param.name) (solver_params : ref)
  (shown : Q) : ParamGroup :=
  mkParamGroup None
    [mkParamSpinBox param_name solver_params 0 10000 true shown].

(** A group of [_create_feature_cost_group]: a checked group box around
    the weight and offset spin boxes, both over [[-10000, 10000]]. *)
Definition feature_cost_group (weight_name offset_name : Param.name)
  (solver_params : ref) (weight offset : Q) : ParamGroup :=
  mkParamGroup (Some true)
    [mkParamSpinBox weight_name solver_params (-10000) 10000 true weight;
     mkParamSpinBox offset_name solver_params (-10000) 10000 true offset].

(** *** The widget *)

Record MotileWidget := mkMotileWidget {
  viewer_layers : list Layer;
  solver_params : ref;
  param_groups : list ParamGroup;
  layer_selection_box : QComboBox;
  run_name : string;
  running_label_visible : bool;
  load_tracks_selection : QComboBox;
  update_signals : list ref;
  workers : list (ndarray * ref)
}.

Fixpoint add_labels_layers (layers : list Layer) (box : QComboBox) : QComboBox :=
  match layers with
  | [] => box
  | layer :: rest =>
      add_labels_layers rest
        (if isinstance_Labels layer then addItem (name layer) box else box)
  end.

(** The selection box built by [_ui_select_labels_layer]. *)
Definition _ui_select_labels_layer (layers : list Layer) : QComboBox :=
  let box := add_labels_layers layers new_QComboBox in
  if (count box =? 0)%nat then addItem "None" box else box.

Definition get_labels_layer (w : MotileWidget) : result (option Layer) :=
  let curr_text := currentText (layer_selection_box w) in
  if String.eqb curr_text "None" then Ok None
  else
    match getitem (viewer_layers w) curr_text with
    | Ok layer => Ok (Some layer)
    | Raise e => Raise e
    end.

Definition get_run_name (w : MotileWidget) : string := run_name w.

Definition set_run_name (text : string) (w : MotileWidget) : MotileWidget :=
  mkMotileWidget (viewer_layers w) (solver_params w) (param_groups w)
    (layer_selection_box w) text (running_label_visible w)
    (load_tracks_selection w) (update_signals w) (workers w).

(** [_generate_tracks]: shows the running label and starts a worker on
    the segmentation and the widget's parameter object. *)
Definition _generate_tracks (w : MotileWidget) : result MotileWidget :=
  match get_labels_layer w with
  | Raise e => Raise e
  | Ok None => Ok w
  | Ok (Some labels_layer) =>
      let segmentation := data labels_layer in
      Ok (mkMotileWidget (viewer_layers w) (solver_params w) (param_groups w)
            (layer_selection_box w) (run_name w) true
            (load_tracks_selection w) (update_signals w)
            (workers w ++ [(segmentation, solver_params w)]))
  end.

(** [LoadButton.emit_update_signal]: the emission, then its slots. *)
Definition emit_update_signal (params : ref) (w : MotileWidget) (h : heap)
  : MotileWidget * heap :=
  let '(gs, h') := update_groups params (param_groups w) h in
  (mkMotileWidget (viewer_layers w) (solver_params w) gs
     (layer_selection_box w) (run_name w) (running_label_visible w)
     (load_tracks_selection w) (update_signals w ++ [params]) (workers w),
   h').

(** *** Runs on disk *)

(** Modelled from the spec: [run.py] (class [Run]) is not among the
    sources.  A run bundles a name and a parameter object. *)
Record Run := mkRun {
  Run_run_name : string;
  Run_params : ref
}.

(** Modelled from the spec: what a run directory holds, a name and the
    values of the parameters. *)
Record StoredRun := mkStoredRun {
  stored_run_name : string;
  stored_params : SolverParams
}.

(** Modelled from the spec: the name of the directory [Run.save] writes
    under the base path.  The spec does not say how it is chosen. *)
Variable run_directory : string -> SolverParams -> string.

(** Modelled from the spec: [Run.save(base_path)] persists the run to a
    directory under the base path.  The directories under the base path
    are keyed by name. *)
Definition Run_save (run : Run) (h : heap) (base_path : gmap string StoredRun)
  : gmap string StoredRun :=
  match h !! Run_params run with
  | Some p =>
      <[run_directory (Run_run_name run) p := mkStoredRun (Run_run_name run) p]>
        base_path
  | None => base_path
  end.

(** Modelled from the spec: [Run.load(base_path / run_dir)] reads the
    directory back into a new run with a new parameter object. *)
Definition Run_load (run_dir : string) (base_path : gmap string StoredRun)
  (h : heap) : result (Run * heap) :=
  match base_path !! run_dir with
  | Some stored =>
      let '(params, h') := alloc (stored_params stored) h in
      Ok (mkRun (stored_run_name stored) params, h')
  | None => Raise FileNotFoundError
  end.

Definition _save_run (w : MotileWidget) (h : heap)
  (base_path : gmap string StoredRun) : gmap string StoredRun :=
  let run := mkRun (get_run_name w) (solver_params w) in
  Run_save run h base_path.

Definition _load_run (w : MotileWidget) (h : heap)
  (base_path : gmap string StoredRun) : result (MotileWidget * heap) :=
  let run_dir := currentText (load_tracks_selection w) in
  if String.eqb run_dir "None" then Ok (w, h)
  else
    match Run_load run_dir base_path h with
    | Raise e => Raise e
    | Ok (run, h1) =>
        let w1 := set_run_name (Run_run_name run) w in
        let w2 := mkMotileWidget (viewer_layers w1) (Run_params run)
                    (param_groups w1) (layer_selection_box w1) (run_name w1)
                    (running_label_visible w1) (load_tracks_selection w1)
                    (update_signals w1) (workers w1) in
        Ok (emit_update_signal (solver_params w2) w2 h1)
    end.

(** *** The list of saved runs *)

(** [_list_runs], given the names [base_path.iterdir()] yields. *)
Definition _list_runs (entries : list string) : list string :=
  List.map Pathlib.stem entries.

(** The selection box [_ui_run_motile] fills from [_list_runs]. *)
Definition load_tracks_box (entries : list string) : QComboBox :=
  let box := List.fold_left (fun box run => addItem run box)
               (_list_runs entries) new_QComboBox in
  if (count box =? 0)%nat then addItem "None" box else box.

(** A spin box of a group with an enable control is enabled exactly when
    the control is checked. *)
Definition enabled_as_checked (g : ParamGroup) : Prop :=
  forall checked, enable_control g = Some checked ->
    Forall (fun sb => sb_enabled sb = checked) (spinboxes g).

End SpinBoxes.

(** *** [solve_with_motile] *)

Section SolveWithMotile.
Context {MotileSolver NxGraph TracksLayerInfo : Type}.
(** [MotileSolver(solver_params)] and [MotileSolver.solve] *)
Variable new_MotileSolver : ref -> MotileSolver.
Variable MotileSolver_solve : MotileSolver -> ndarray -> list string -> NxGraph.
(** [motile_toolbox.utils.relabel_segmentation] *)
Variable relabel_segmentation : NxGraph -> ndarray -> ndarray.
(** [motile_toolbox.visualization.to_napari_tracks_layer] *)
Variable to_napari_tracks_layer : NxGraph -> list string -> TracksLayerInfo.

Inductive Call :=
| call_MotileSolver (solver_params : ref)
| call_solve (solver : MotileSolver) (segmentation : ndarray)
    (position_keys : list string)
| call_relabel_segmentation (solution_nx_graph : NxGraph) (segmentation : ndarray)
| call_to_napari_tracks_layer (solution_nx_graph : NxGraph)
    (location_keys : list string).

(** The local variable [position_keys]: bound by one of the two branches,
    unbound otherwise. *)
Definition position_keys_of (segmentation : ndarray) : option (list string) :=
  if (length (shape segmentation) =? 3)%nat then Some ["y"; "x"]
  else if (length (shape segmentation) =? 4)%nat then Some ["z"; "y"; "x"]
  else None.

(** The body run by the worker: its outcome and the calls it made. *)
Definition solve_with_motile (segmentation : ndarray) (solver_params : ref)
  : result (NxGraph * ndarray * TracksLayerInfo * ref) * list Call :=
  let position_keys := position_keys_of segmentation in
  let solver := new_MotileSolver solver_params in
  match position_keys with
  | None => (Raise UnboundLocalError, [call_MotileSolver solver_params])
  | Some position_keys =>
      let solution_nx_graph :=
        MotileSolver_solve solver segmentation position_keys in
      let relabeled_segmentation :=
        relabel_segmentation solution_nx_graph segmentation in
      let tracks_layer_info :=
        to_napari_tracks_layer solution_nx_graph position_keys in
      (Ok (solution_nx_graph, relabeled_segmentation, tracks_layer_info,
           solver_params),
       [call_MotileSolver solver_params;
        call_solve solver segmentation position_keys;
        call_relabel_segmentation solution_nx_graph segmentation;
        call_to_napari_tracks_layer solution_nx_graph position_keys])
  end.

End SolveWithMotile.

End MotileWidget.

(** ** [widgets/params_editor.py] *)

Module ParamsEditor.

Section Rows.
(** The row is generic in the parameter object and in the value its
    control shows (a number, or a weight and offset pair). *)
Context {Params V : Type}.
(** [params.__getattribute__(self.param_name)] *)
Variable getattribute : Params -> option V.
(** [partial(self.solver_params.__setattr__, param_name)], the slot
    [_params_group] connects to the row's [valueChanged]. *)
Variable setattribute : option V -> Params -> Params.
(** Whether the control already shows a value. *)
Variable same_value : V -> V -> bool.

(** [OptionalEditableParam]: the check box that is its label, and its
    value control. *)
Record OptionalEditableParam := mkOptionalEditableParam {
  param_label_checked : bool;
  param_value_enabled : bool;
  param_value_shown : V
}.

(** [toggle_enable], the slot of the label's [toggled] signal: it emits
    [valueChanged] with the shown value or with [None]. *)
Definition toggle_enable (checked : bool) (row : OptionalEditableParam)
  (solver_params : Params) : OptionalEditableParam * Params :=
  let row' := mkOptionalEditableParam (param_label_checked row) checked
                (param_value_shown row) in
  let v := if checked then Some (param_value_shown row') else None in
  (row', setattribute v solver_params).

(** [QCheckBox.setChecked]: [toggled] is emitted only on a change. *)
Definition setChecked (b : bool) (row : OptionalEditableParam)
  (solver_params : Params) : OptionalEditableParam * Params :=
  if Bool.eqb (param_label_checked row) b then (row, solver_params)
  else
    toggle_enable b
      (mkOptionalEditableParam b (param_value_enabled row) (param_value_shown row))
      solver_params.

(** Modelled from the spec: [param_values.py] is not among the sources.
    [EditableParamValue.update_value] shows the value and, when it
    differs from the one shown, reports it through [valueChanged]. *)
Definition param_value_update_value (v : V) (row : OptionalEditableParam)
  (solver_params : Params) : OptionalEditableParam * Params :=
  if same_value v (param_value_shown row) then (row, solver_params)
  else
    (mkOptionalEditableParam (param_label_checked row) (param_value_enabled row) v,
     setattribute (Some v) solver_params).

(** [OptionalEditableParam.update_from_params] *)
Definition update_from_params (params : Params) (row : OptionalEditableParam)
  (solver_params : Params) : OptionalEditableParam * Params :=
  match getattribute params with
  | None =>
      let '(row1, m1) := setChecked false row solver_params in
      (mkOptionalEditableParam (param_label_checked row1) false
         (param_value_shown row1), m1)
  | Some param_val =>
      let '(row1, m1) := setChecked true row solver_params in
      let row2 := mkOptionalEditableParam (param_label_checked row1) true
                    (param_value_shown row1) in
      param_value_update_value param_val row2 m1
  end.

(** The user clicks the label of an optional row. *)
Definition click_label (row : OptionalEditableParam) (solver_params : Params)
  : OptionalEditableParam * Params :=
  setChecked (negb (param_label_checked row)) row solver_params.

End Rows.

End ParamsEditor.

(** ** [widgets/run_editor.py] *)

Module RunEditor.
Import Qt Napari.

(** [MotileRun], by the keywords [get_run] constructs it with; the class
    itself ([backend/motile_run.py]) is not among the sources. *)
Record MotileRun := mkMotileRun {
  run_name : string;
  solver_params : ref;
  input_segmentation : ndarray
}.

Record RunEditor := mkRunEditor {
  layers : list Layer;
  layer_selection_box : QComboBox;
  run_name_edit : string;
  (** [self.solver_params_widget.solver_params] *)
  solver_params_widget : ref;
  (** emissions of [create_run] *)
  create_run : list MotileRun
}.

Fixpoint add_labels_layers (layers : list Layer) (box : QComboBox) : QComboBox :=
  match layers with
  | [] => box
  | layer :: rest =>
      add_labels_layers rest
        (if isinstance_Labels layer then addItem (name layer) box else box)
  end.

Definition update_labels_layers (new_layers : list Layer) (ed : RunEditor)
  : RunEditor :=
  let box := clear (layer_selection_box ed) in
  let box := add_labels_layers new_layers box in
  let box := if (count box =? 0)%nat then addItem "None" box else box in
  mkRunEditor new_layers box (run_name_edit ed) (solver_params_widget ed)
    (create_run ed).

Definition get_labels_layer (ed : RunEditor) : result (option Layer) :=
  let layer_name := currentText (layer_selection_box ed) in
  if String.eqb layer_name "None" then Ok None
  else
    match getitem (layers ed) layer_name with
    | Ok layer => Ok (Some layer)
    | Raise e => Raise e
    end.

Definition get_run_name (ed : RunEditor) : string := run_name_edit ed.

(** [get_run]: the run, if any, and the store after the copy.  The
    editor's parameter object is in the store; the last branch stands for
    a reference to no object, which the program cannot hold. *)
Definition get_run (ed : RunEditor) (h : heap)
  : result (option MotileRun) * heap :=
  let run_name := get_run_name ed in
  match get_labels_layer ed with
  | Raise e => (Raise e, h)
  | Ok None => (Ok None, h)
  | Ok (Some input_layer) =>
      match expand_dims (data input_layer) 1 with
      | Raise e => (Raise e, h)
      | Ok input_seg =>
          match copy (solver_params_widget ed) h with
          | Some (params, h') =>
              (Ok (Some (mkMotileRun run_name params input_seg)), h')
          | None => (Raise KeyError, h)
          end
      end
  end.

Definition emit_run (ed : RunEditor) (h : heap) : result RunEditor * heap :=
  match get_run ed h with
  | (Raise e, h') => (Raise e, h')
  | (Ok None, h') => (Ok ed, h')
  | (Ok (Some run), h') =>
      (Ok (mkRunEditor (layers ed) (layer_selection_box ed) (run_name_edit ed)
             (solver_params_widget ed) (create_run ed ++ [run])), h')
  end.

(** Later edits in the parameter editor: each is a
    [self.solver_params.__setattr__(param_name, v)] on the editor's
    object. *)
Fixpoint edit_params (ed : RunEditor) (edits : list (Param.name * value))
  (h : heap) : heap :=
  match edits with
  | [] => h
  | (param_name, v) :: rest =>
      edit_params ed rest (store_attr (solver_params_widget ed) param_name v h)
  end.

(** The fields of an object after a series of [__setattr__]. *)
Definition apply_edits (edits : list (Param.name * value)) (p : SolverParams)
  : SolverParams :=
  List.fold_left (fun p edit => setattr (fst edit) (snd edit) p) edits p.

(** The parameter objects of the runs emitted so far are all different
    objects of the store, and none is the editor's own. *)
Definition runs_separate (ed : RunEditor) (h : heap) : Prop :=
  (solver_params_widget ed < length h)%nat
  /\ NoDup (List.map solver_params (create_run ed))
  /\ Forall (fun run => (solver_params run < length h)%nat
                        /\ solver_params run <> solver_params_widget ed)
       (create_run ed).

End RunEditor.

(** ** Sample inputs *)

Module Samples.

(** A parameter object with every field set. *)
Definition default_params : SolverParams :=
  mkSolverParams (Some 50%Q) (Some 2%Q) (Some 1%Q)
                 (Some 30%Q) (Some 30%Q) (Some 20%Q) (Some 20%Q)
                 (Some 1%Q) (Some (-20)%Q) (Some 5%Q) (Some (-20)%Q).

(** The same, after [params.distance_offset = None]. *)
Definition params_without_distance_offset : SolverParams :=
  setattr Param.distance_offset None default_params.

(** Parameters without an appear cost and without an iou cost. *)
Definition params_without_appear_and_iou : SolverParams :=
  setattr Param.appear_cost None
    (setattr Param.iou_offset None
       (setattr Param.iou_weight None default_params)).

(** A library that raises on every constraint or cost built from
    [None]. *)
Definition refuses_None (call : @MotileSolver.LibraryCall unit) : bool :=
  match call with
  | MotileSolver.lib_Solver _ => false
  | MotileSolver.lib_add_constraints (MotileSolver.MaxChildren v)
  | MotileSolver.lib_add_constraints (MotileSolver.MaxParents v) =>
      negb (is_not_None v)
  | MotileSolver.lib_add_costs c _ =>
      List.existsb (fun v => negb (is_not_None v))
        (MotileSolver.cost_arguments c)
  end.

(** A viewer that shows an image and no labels. *)
Definition image_layer : Napari.Layer :=
  Napari.mkLayer Napari.Image "raw" (mk_ndarray [2; 4; 4]%nat (repeat 0%Z 32)).

(** A labels layer over three frames of 2 by 2 pixels. *)
Definition labels_layer : Napari.Layer :=
  Napari.mkLayer Napari.Labels "seg"
    (mk_ndarray [3; 2; 2]%nat [0; 1; 0; 1; 0; 0; 1; 1; 2; 2; 0; 0]%Z).

Definition widget_without_labels : MotileWidget.MotileWidget :=
  MotileWidget.mkMotileWidget [image_layer] 0%nat []
    (MotileWidget._ui_select_labels_layer [image_layer]) "tracks" false
    (Qt.addItem "None" Qt.new_QComboBox) [] [].

Definition run_editor_without_labels : RunEditor.RunEditor :=
  RunEditor.update_labels_layers [image_layer]
    (RunEditor.mkRunEditor [] Qt.new_QComboBox "new_run" 0%nat []).

Definition run_editor_with_labels : RunEditor.RunEditor :=
  RunEditor.update_labels_layers [image_layer; labels_layer]
    (RunEditor.mkRunEditor [] Qt.new_QComboBox "new_run" 0%nat []).

(** A range clamp for the value a spin box keeps. *)
Definition clamp (minimum maximum v : Q) : Q :=
  if Qle_bool v minimum then minimum
  else if Qle_bool maximum v then maximum
  else v.

(** The "Appear Cost" row of a fresh widget whose parameters are object 0. *)
Definition appear_cost_row : MotileWidget.ParamGroup :=
  MotileWidget.constant_cost_row Param.appear_cost 0%nat 30.

(** Object 0: the widget's parameters.  Object 1: the parameters of a
    loaded run, with [appear_cost = 30]. *)
Definition two_param_objects : heap := [default_params; default_params].

(** The controls of a fresh widget bound to object 0. *)
Definition fresh_param_groups : list MotileWidget.ParamGroup :=
  [ MotileWidget.data_param_row Param.max_edge_distance 0%nat 50;
    MotileWidget.data_param_row Param.max_children 0%nat 2;
    MotileWidget.data_param_row Param.max_parents 0%nat 1;
    MotileWidget.constant_cost_row Param.appear_cost 0%nat 30;
    MotileWidget.constant_cost_row Param.disappear_cost 0%nat 30;
    MotileWidget.constant_cost_row Param.division_cost 0%nat 20;
    MotileWidget.constant_cost_row Param.merge_cost 0%nat 20;
    MotileWidget.feature_cost_group Param.distance_weight Param.distance_offset
      0%nat 1 (-20);
    MotileWidget.feature_cost_group Param.iou_weight Param.iou_offset
      0%nat 5 (-20) ].

(** A run directory named after the run. *)
Definition directory_by_name (run_name : string) (p : SolverParams) : string :=
  run_name.

(** A widget about to load the run directory "tracks". *)
Definition widget_loading_tracks : MotileWidget.MotileWidget :=
  MotileWidget.mkMotileWidget [labels_layer] 0%nat fresh_param_groups
    (MotileWidget._ui_select_labels_layer [labels_layer]) "something else" false
    (Qt.addItem "tracks" Qt.new_QComboBox) [] [].

(** A widget named "tracks" whose iou cost was switched off. *)
Definition widget_saving_tracks : MotileWidget.MotileWidget :=
  MotileWidget.mkMotileWidget [labels_layer] 0%nat fresh_param_groups
    (MotileWidget._ui_select_labels_layer [labels_layer]) "tracks" false
    (Qt.addItem "None" Qt.new_QComboBox) [] [].

Definition params_without_iou : SolverParams :=
  setattr Param.iou_offset None (setattr Param.iou_weight None default_params).

(** The "Distance Cost" and "Iou Cost" groups of a fresh widget. *)
Definition distance_group : MotileWidget.ParamGroup :=
  MotileWidget.feature_cost_group Param.distance_weight Param.distance_offset
    0%nat 1 (-20).

Definition iou_group : MotileWidget.ParamGroup :=
  MotileWidget.feature_cost_group Param.iou_weight Param.iou_offset
    0%nat 5 (-20).

(** Object 0: the widget's parameters.  Object 1: parameters without an
    iou cost. *)
Definition params_and_params_without_iou : heap :=
  [default_params; params_without_iou].

(** A base path that holds the run "tracks", saved without iou cost. *)
Definition base_path_with_tracks : gmap string MotileWidget.StoredRun :=
  <["tracks" := MotileWidget.mkStoredRun "tracks" params_without_iou]> ∅.

(** A widget built over an empty base path. *)
Definition widget_over_empty_base_path : MotileWidget.MotileWidget :=
  MotileWidget.mkMotileWidget [labels_layer] 0%nat fresh_param_groups
    (MotileWidget._ui_select_labels_layer [labels_layer]) "tracks" false
    (MotileWidget.load_tracks_box []) [] [].

(** A widget built over a viewer that shows an image and labels. *)
Definition widget_with_image_and_labels : MotileWidget.MotileWidget :=
  MotileWidget.mkMotileWidget [image_layer; labels_layer] 0%nat
    fresh_param_groups
    (MotileWidget._ui_select_labels_layer [image_layer; labels_layer])
    "tracks" false (MotileWidget.load_tracks_box []) [] [].

(** Two edits in the parameter editor. *)
Definition two_edits : list (Param.name * value) :=
  [(Param.appear_cost, None); (Param.iou_weight, Some 7%Q)].

(** A widget whose run is called [run_name], with the parameters of
    object 0, before anything was saved. *)
Definition widget_named (run_name : string) : MotileWidget.MotileWidget :=
  MotileWidget.mkMotileWidget [labels_layer] 0%nat fresh_param_groups
    (MotileWidget._ui_select_labels_layer [labels_layer]) run_name false
    (MotileWidget.load_tracks_box []) [] [].

(** A widget built later, over a base path with the given entries; the
    first entry is the current one. *)
Definition widget_built_over (entries : list string) : MotileWidget.MotileWidget :=
  MotileWidget.mkMotileWidget [labels_layer] 0%nat fresh_param_groups
    (MotileWidget._ui_select_labels_layer [labels_layer]) "something else" false
    (MotileWidget.load_tracks_box entries) [] [].

End Samples.

(* ================================================================== *)
(** * Properties *)
(* ================================================================== *)

(** ** [construct_solver] *)

Section ConstructSolverFacts.
Import MotileSolver.
Context {DiGraph : Type}.
Implicit Types (g : DiGraph) (p : SolverParams).

Lemma construct_solver_costs g p :
  costs (construct_solver g p) = cost_terms p.
Proof.
  unfold construct_solver, cost_terms.
  destruct (appear_cost p), (disappear_cost p), (division_cost p),
    (merge_cost p), (distance_weight p), (iou_weight p); reflexivity.
Qed.

Lemma construct_solver_constraints g p :
  constraints (construct_solver g p)
  = [MaxChildren (max_children p); MaxParents (max_parents p)].
Proof.
  unfold construct_solver.
  destruct (appear_cost p), (disappear_cost p), (division_cost p),
    (merge_cost p), (distance_weight p), (iou_weight p); reflexivity.
Qed.

Lemma is_not_None_true {A} (v : option A) : is_not_None v = true <-> v <> None.
Proof. destruct v; simpl; split; congruence. Qed.

Lemma In_cost_terms c name p :
  In (c, name) (cost_terms p) <->
     (c = Appear (appear_cost p) /\ name = None /\ appear_cost p <> None)
  \/ (c = Disappear (disappear_cost p) /\ name = None /\ disappear_cost p <> None)
  \/ (c = Split (division_cost p) /\ name = None /\ division_cost p <> None)
  \/ (c = Merge (merge_cost p) /\ name = None /\ merge_cost p <> None)
  \/ (c = EdgeSelection (distance_weight p) DISTANCE (distance_offset p)
      /\ name = Some "distance" /\ distance_weight p <> None)
  \/ (c = EdgeSelection (iou_weight p) IOU (iou_offset p)
      /\ name = Some "iou" /\ iou_weight p <> None).
Proof.
  unfold cost_terms. rewrite !in_app_iff.
  split.
  - intros H.
    repeat (destruct H as [H | H]);
      [ destruct (appear_cost p) eqn:E
      | destruct (disappear_cost p) eqn:E
      | destruct (division_cost p) eqn:E
      | destruct (merge_cost p) eqn:E
      | destruct (distance_weight p) eqn:E
      | destruct (iou_weight p) eqn:E ];
      simpl in H; try contradiction;
      destruct H as [H | []]; inversion H; subst; clear H.
    + left. repeat split; congruence.
    + right; left. repeat split; congruence.
    + do 2 right; left. repeat split; congruence.
    + do 3 right; left. repeat split; congruence.
    + do 4 right; left. repeat split; congruence.
    + do 5 right. repeat split; congruence.
  - intros H.
    repeat (destruct H as [H | H]); destruct H as (-> & -> & Hn);
      apply is_not_None_true in Hn; rewrite Hn; simpl; tauto.
Qed.

(** C1.  The solver built by [construct_solver] carries exactly the cost
    terms of the optional parameters that are set: an [Appear] cost iff
    [appear_cost] is not [None], a [Disappear] cost iff [disappear_cost]
    is not [None], a [Split] cost with constant [division_cost] iff
    [division_cost] is not [None], a [Merge] cost with constant
    [merge_cost] iff [merge_cost] is not [None], an [EdgeSelection] cost
    named "distance" (weight [distance_weight], attribute [DISTANCE],
    constant [distance_offset]) iff [distance_weight] is not [None], and
    one named "iou" (weight [iou_weight], attribute [IOU], constant
    [iou_offset]) iff [iou_weight] is not [None].  A parameter that is
    [None] contributes no term. *)
Theorem construct_solver_cost_terms g p :
  let s := construct_solver g p in
  costs s = cost_terms p
  /\ (forall k name, In (Appear k, name) (costs s)
        <-> appear_cost p <> None /\ k = appear_cost p /\ name = None)
  /\ (forall k name, In (Disappear k, name) (costs s)
        <-> disappear_cost p <> None /\ k = disappear_cost p /\ name = None)
  /\ (forall k name, In (Split k, name) (costs s)
        <-> division_cost p <> None /\ k = division_cost p /\ name = None)
  /\ (forall k name, In (Merge k, name) (costs s)
        <-> merge_cost p <> None /\ k = merge_cost p /\ name = None)
  /\ (forall w a k, In (EdgeSelection w a k, Some "distance") (costs s)
        <-> distance_weight p <> None
            /\ w = distance_weight p /\ a = DISTANCE /\ k = distance_offset p)
  /\ (forall w a k, In (EdgeSelection w a k, Some "iou") (costs s)
        <-> iou_weight p <> None
            /\ w = iou_weight p /\ a = IOU /\ k = iou_offset p)
  /\ (forall w a k name, In (EdgeSelection w a k, name) (costs s)
        -> name = Some "distance" \/ name = Some "iou").
Proof.
  cbv zeta. rewrite construct_solver_costs.
  split; [reflexivity |].
  repeat split; intros;
    repeat match goal with
           | H : In _ (cost_terms p) |- _ => apply In_cost_terms in H
           | |- In _ (cost_terms p) => apply In_cost_terms
           | H : _ \/ _ |- _ => destruct H
           | H : _ /\ _ |- _ => destruct H
           end;
    try discriminate;
    repeat match goal with
           | H : _ = _ |- _ => inversion H; clear H; subst
           end;
    try congruence; try tauto.
Qed.

(** C8.  Whatever the optional cost parameters are, the solver built by
    [construct_solver] carries the two constraints
    [MaxChildren(max_children)] and [MaxParents(max_parents)], and no
    other constraint. *)
Theorem construct_solver_max_children_max_parents g p :
  constraints (construct_solver g p)
    = [MaxChildren (max_children p); MaxParents (max_parents p)]
  /\ In (MaxChildren (max_children p)) (constraints (construct_solver g p))
  /\ In (MaxParents (max_parents p)) (constraints (construct_solver g p)).
Proof.
  rewrite construct_solver_constraints. simpl. tauto.
Qed.

(** C7, as amended.  [construct_solver] has no failure of its own: it
    returns the solver unless one of the library calls it makes raises,
    and then it fails at the first such call, the calls being those for
    the solver, its two constraints and the costs of the parameters that
    are set.  The argument each branch tests is never [None] when it
    reaches the cost constructor.  The offsets are passed untested: a
    [None] reaches a cost constructor exactly when an offset is [None]
    beside a weight that is set. *)
Theorem construct_solver_fails_only_in_the_library
  (raises : LibraryCall -> bool) g p :
  construct_solver_or_raise raises g p
    = match List.find raises (library_calls g p) with
      | Some call => inr call
      | None => inl (construct_solver g p)
      end
  /\ (forall c name, In (c, name) (costs (construct_solver g p))
        -> guarded_argument c <> None)
  /\ (no_None_passed (construct_solver g p) <-> offsets_set_with_weights p).
Proof.
  split; [| split].
  - unfold construct_solver_or_raise, library_calls, construct_solver, lib.
    destruct (appear_cost p), (disappear_cost p), (division_cost p),
      (merge_cost p), (distance_weight p), (iou_weight p); simpl;
      repeat (match goal with
              | |- context [raises ?call] => destruct (raises call) eqn:?
              end; simpl; try reflexivity).
  - rewrite construct_solver_costs. intros c name H.
    apply In_cost_terms in H.
    repeat destruct H as [H | H]; destruct H as (-> & _ & Hn); exact Hn.
  - unfold no_None_passed, offsets_set_with_weights.
    rewrite construct_solver_costs. split.
    + intros Hno. split; intros Hw Hoff.
      * apply (Hno (EdgeSelection (distance_weight p) DISTANCE (distance_offset p))
                 (Some "distance")).
        -- apply In_cost_terms. do 4 right; left. repeat split. exact Hw.
        -- simpl. right; left. exact Hoff.
      * apply (Hno (EdgeSelection (iou_weight p) IOU (iou_offset p))
                 (Some "iou")).
        -- apply In_cost_terms. do 5 right. repeat split. exact Hw.
        -- simpl. right; left. exact Hoff.
    + intros [Hdistance Hiou] c name H Hin. apply In_cost_terms in H.
      repeat destruct H as [H | H]; destruct H as (-> & _ & Hn); simpl in Hin;
        repeat destruct Hin as [Hin | Hin]; try contradiction.
      * exact (Hdistance Hn Hin).
      * exact (Hiou Hn Hin).
Qed.

End ConstructSolverFacts.

(** C7, as stated, fails: with [distance_weight = 1] and
    [distance_offset = None] the branch on [distance_weight] is taken and
    [EdgeSelection] is built with [constant = None]. *)
Lemma construct_solver_passes_None_offset :
  ~ MotileSolver.no_None_passed
      (MotileSolver.construct_solver tt Samples.params_without_distance_offset).
Proof.
  intros H.
  apply (H (MotileSolver.EdgeSelection (Some 1%Q) MotileSolver.DISTANCE None)
           (Some "distance")).
  - vm_compute. tauto.
  - simpl. tauto.
Qed.

(** Without an appear cost and without an iou cost, no [None] reaches a
    cost constructor and a library that refuses [None] lets
    [construct_solver] return; with a distance weight and no distance
    offset the same library raises at the distance cost. *)
Lemma construct_solver_fails_only_in_the_library_witness :
  MotileSolver.no_None_passed
    (MotileSolver.construct_solver tt Samples.params_without_appear_and_iou)
  /\ MotileSolver.construct_solver_or_raise Samples.refuses_None tt
       Samples.params_without_appear_and_iou
     = inl (MotileSolver.construct_solver tt Samples.params_without_appear_and_iou)
  /\ MotileSolver.construct_solver_or_raise Samples.refuses_None tt
       Samples.params_without_distance_offset
     = inr (MotileSolver.lib_add_costs
              (MotileSolver.EdgeSelection (Some 1%Q) MotileSolver.DISTANCE None)
              (Some "distance")).
Proof.
  split; [| split].
  - apply (construct_solver_fails_only_in_the_library Samples.refuses_None tt
             Samples.params_without_appear_and_iou).
    split; intros H; simpl in *; congruence.
  - rewrite (proj1 (construct_solver_fails_only_in_the_library
                      Samples.refuses_None tt
                      Samples.params_without_appear_and_iou)).
    reflexivity.
  - rewrite (proj1 (construct_solver_fails_only_in_the_library
                      Samples.refuses_None tt
                      Samples.params_without_distance_offset)).
    reflexivity.
Defined.

(** ** [solve] *)

Section SolveFacts.
Import MotileSolver.
Context {ndarray DiGraph ConflictSets Solution SelectedGraph : Type}.
Variable get_candidate_graph :
  ndarray -> value -> bool -> bool -> DiGraph * ConflictSets.
Variable Solver_solve : Solver DiGraph -> bool -> Solution.
Variable get_selected_subgraph : Solver DiGraph -> Solution -> SelectedGraph.
Variable graph_to_nx : SelectedGraph -> DiGraph.

Local Abbreviation solve :=
  (solve get_candidate_graph Solver_solve get_selected_subgraph graph_to_nx).

Lemma has_iou_cost_iff (g : DiGraph) (p : SolverParams) :
  has_cost_named (construct_solver g p) "iou" <-> iou_weight p <> None.
Proof.
  unfold has_cost_named. rewrite construct_solver_costs. split.
  - intros [c H]. apply In_cost_terms in H.
    repeat destruct H as [H | H]; destruct H as (_ & Hname & Hn);
      try discriminate; exact Hn.
  - intros Hn. exists (EdgeSelection (iou_weight p) IOU (iou_offset p)).
    apply In_cost_terms. do 5 right. repeat split; assumption.
Qed.

(** C2.  [solve] builds the candidate graph from the segmentation, builds
    the solver from that graph and the parameters, runs the solver, takes
    the selected subgraph of the solution, converts it to a networkx
    graph and returns that graph.  These five calls happen in this order,
    each on the result of the one before; besides them [solve] only logs
    twice and reads the clock twice. *)
Theorem solve_steps_in_order (solver_params : SolverParams) (segmentation : ndarray) :
  let cand_graph :=
    fst (get_candidate_graph segmentation (max_edge_distance solver_params)
           (is_not_None (iou_weight solver_params)) false) in
  let solver := construct_solver cand_graph solver_params in
  let solution := Solver_solve solver true in
  let solution_graph := get_selected_subgraph solver solution in
  let steps :=
    [ call_get_candidate_graph segmentation (max_edge_distance solver_params)
        (is_not_None (iou_weight solver_params)) false;
      call_construct_solver cand_graph solver_params;
      call_Solver_solve solver true;
      call_get_selected_subgraph solver solution;
      call_graph_to_nx solution_graph ] in
  let r := solve solver_params segmentation in
  List.filter (fun c => negb (is_diagnostic c)) (snd r) = steps
  /\ fst r = graph_to_nx solution_graph
  /\ List.filter is_diagnostic (snd r)
     = [call_logger_debug; call_time; call_time; call_logger_info]
  /\ snd r
     = [ call_get_candidate_graph segmentation (max_edge_distance solver_params)
           (is_not_None (iou_weight solver_params)) false;
         call_logger_debug;
         call_construct_solver cand_graph solver_params;
         call_time;
         call_Solver_solve solver true;
         call_time;
         call_logger_info;
         call_get_selected_subgraph solver solution;
         call_graph_to_nx solution_graph ].
Proof.
  cbv zeta. unfold MotileSolver.solve, bind, called, ret.
  destruct (get_candidate_graph _ _ _ _) as [cand_graph conflicts].
  simpl. repeat split.
Qed.


End SolveFacts.

(** ** [solve_with_motile] *)

Section SolveWithMotileFacts.
Import MotileWidget.
Context {MotileSolver NxGraph TracksLayerInfo : Type}.
Variable new_MotileSolver : ref -> MotileSolver.
Variable MotileSolver_solve : MotileSolver -> ndarray -> list string -> NxGraph.
Variable relabel_segmentation : NxGraph -> ndarray -> ndarray.
Variable to_napari_tracks_layer : NxGraph -> list string -> TracksLayerInfo.

Local Abbreviation solve_with_motile :=
  (solve_with_motile new_MotileSolver MotileSolver_solve
     relabel_segmentation to_napari_tracks_layer).

Lemma position_keys_of_cases (segmentation : ndarray) :
  let ndim := length (shape segmentation) in
  (ndim = 3%nat /\ position_keys_of segmentation = Some ["y"; "x"])
  \/ (ndim = 4%nat /\ position_keys_of segmentation = Some ["z"; "y"; "x"])
  \/ (ndim <> 3%nat /\ ndim <> 4%nat /\ position_keys_of segmentation = None).
Proof.
  cbv zeta. unfold position_keys_of.
  destruct (Nat.eqb_spec (length (shape segmentation)) 3) as [E3 | N3].
  - left. split; [exact E3 | reflexivity].
  - destruct (Nat.eqb_spec (length (shape segmentation)) 4) as [E4 | N4].
    + right; left. split; [exact E4 | reflexivity].
    + right; right. repeat split; assumption.
Qed.


End SolveWithMotileFacts.

(** ** The layer selectors *)

Section LayerSelectionFacts.
Import Qt Napari.

Lemma addItem_current (text : string) (box : QComboBox) :
  exists i, currentIndex (addItem text box) = Some i
            /\ (currentIndex box = None -> i = 0%nat).
Proof.
  unfold addItem; simpl. destruct (currentIndex box) as [i |].
  - exists i. split; [reflexivity | discriminate].
  - exists 0%nat. auto.
Qed.

Lemma add_labels_layers_keeps_current (layers : list Layer) (box : QComboBox) i :
  currentIndex box = Some i ->
  currentIndex (MotileWidget.add_labels_layers layers box) = Some i.
Proof.
  revert box. induction layers as [| layer rest IH]; intros box Hb; simpl;
    [exact Hb |].
  apply IH. destruct (isinstance_Labels layer); [| exact Hb].
  unfold addItem; simpl. rewrite Hb. reflexivity.
Qed.

Lemma MotileWidget_add_labels_layers_spec (layers : list Layer) (box : QComboBox) :
  items (MotileWidget.add_labels_layers layers box)
    = items box ++ labels_names layers
  /\ (currentIndex box = None ->
      currentIndex (MotileWidget.add_labels_layers layers box)
        = match labels_names layers with [] => None | _ => Some 0%nat end).
Proof.
  revert box. unfold labels_names.
  induction layers as [| layer rest IH]; intros box; simpl.
  - rewrite app_nil_r. auto.
  - destruct (isinstance_Labels layer); simpl.
    + destruct (IH (addItem (name layer) box)) as [IHi _].
      rewrite IHi. simpl. rewrite <- app_assoc. simpl. split; [reflexivity |].
      intros Hnone.
      destruct (addItem_current (name layer) box) as (i & Hi & Hz).
      rewrite (Hz Hnone) in Hi.
      apply add_labels_layers_keeps_current. exact Hi.
    + apply IH.
Qed.

Lemma RunEditor_add_labels_layers_eq (layers : list Layer) (box : QComboBox) :
  RunEditor.add_labels_layers layers box
    = MotileWidget.add_labels_layers layers box.
Proof.
  revert box. induction layers as [| layer rest IH]; intros box; simpl;
    [reflexivity | apply IH].
Qed.

Lemma no_labels_names (layers : list Layer) :
  (forall layer, In layer layers -> isinstance_Labels layer = false) ->
  labels_names layers = [].
Proof.
  unfold labels_names. induction layers as [| l r IH]; intros H; simpl;
    [reflexivity |].
  rewrite (H l (or_introl eq_refl)). apply IH.
  intros layer Hin. apply H. right. exact Hin.
Qed.

Lemma getitem_found (layers : list Layer) (key : string) (layer : Layer) :
  getitem layers key = Ok layer -> name layer = key /\ In layer layers.
Proof.
  unfold getitem.
  destruct (List.find _ layers) as [l |] eqn:E; [| discriminate].
  intros H. inversion H; subst. apply find_some in E.
  destruct E as [Hin Heq]. apply String.eqb_eq in Heq. auto.
Qed.

Lemma getitem_unique (layers : list Layer) (layer : Layer) :
  NoDup (List.map name layers) -> In layer layers ->
  getitem layers (name layer) = Ok layer.
Proof.
  unfold getitem. induction layers as [| l rest IH]; intros Hnd Hin; simpl.
  - contradiction.
  - inversion Hnd as [| ? ? Hnotin Hnd_rest]; subst.
    destruct Hin as [-> | Hin].
    + rewrite String.eqb_refl. reflexivity.
    + destruct (String.eqb_spec (name l) (name layer)) as [E | N].
      * exfalso. apply Hnotin. rewrite E. apply list_elem_of_In.
        apply in_map. exact Hin.
      * apply IH; assumption.
Qed.

Lemma getitem_present (layers : list Layer) (layer : Layer) :
  In layer layers ->
  exists found, getitem layers (name layer) = Ok found
                /\ name found = name layer /\ In found layers.
Proof.
  intros Hin. unfold getitem.
  destruct (List.find (fun l => String.eqb (name l) (name layer)) layers)
    as [found |] eqn:E.
  - exists found. apply find_some in E as [Hf Heq].
    apply String.eqb_eq in Heq. auto.
  - exfalso. apply (find_none _ _ E) in Hin.
    rewrite String.eqb_refl in Hin. discriminate.
Qed.

Lemma getitem_absent (layers : list Layer) (key : string) :
  (forall layer, In layer layers -> name layer <> key) ->
  getitem layers key = Raise KeyError.
Proof.
  intros Hno. unfold getitem.
  destruct (List.find (fun l => String.eqb (name l) key) layers)
    as [found |] eqn:E; [| reflexivity].
  apply find_some in E as [Hf Heq]. apply String.eqb_eq in Heq.
  exfalso. exact (Hno found Hf Heq).
Qed.

Lemma select_box_spec (layers : list Layer) :
  let box := MotileWidget._ui_select_labels_layer layers in
  items box = match labels_names layers with [] => ["None"] | ns => ns end
  /\ currentIndex box = Some 0%nat.
Proof.
  cbv zeta. unfold MotileWidget._ui_select_labels_layer, count.
  destruct (MotileWidget_add_labels_layers_spec layers new_QComboBox) as [Hi Hc].
  specialize (Hc eq_refl). simpl in Hi.
  destruct (labels_names layers) as [| n ns] eqn:E.
  - rewrite Hi. simpl. unfold addItem. rewrite Hi, Hc. auto.
  - rewrite Hi. simpl. rewrite Hi, Hc. auto.
Qed.

Lemma update_labels_layers_spec (layers : list Layer) (ed : RunEditor.RunEditor) :
  let ed' := RunEditor.update_labels_layers layers ed in
  RunEditor.layers ed' = layers
  /\ RunEditor.layer_selection_box ed'
     = MotileWidget._ui_select_labels_layer layers.
Proof.
  cbv zeta. unfold RunEditor.update_labels_layers,
    MotileWidget._ui_select_labels_layer. simpl.
  rewrite RunEditor_add_labels_layers_eq. auto.
Qed.

(** C9.  The layer selectors use "None" as a sentinel.  A selection box
    filled from layers none of which is a [Labels] layer holds the single
    entry "None" (otherwise it holds the names of the [Labels] layers).
    [get_labels_layer] returns [None] exactly when the current text is
    "None", and otherwise returns the layer selected by name: when a
    layer of the current text is among the layers, a layer of that name is
    returned (that very layer when the names are all different), and when
    there is none the lookup fails with [KeyError].  When it returns
    [None], [_generate_tracks] returns with the widget unchanged (no worker
    started) and [get_run] returns [None] with the store unchanged (no
    run, no copy), so [emit_run] emits nothing. *)
Theorem None_sentinel (layers : list Layer)
  (w : MotileWidget.MotileWidget) (ed : RunEditor.RunEditor) (h : heap) :
  (* population *)
  (items (MotileWidget._ui_select_labels_layer layers)
     = match labels_names layers with [] => ["None"] | ns => ns end
   /\ items (RunEditor.layer_selection_box (RunEditor.update_labels_layers layers ed))
     = match labels_names layers with [] => ["None"] | ns => ns end)
  /\ ((forall layer, In layer layers -> isinstance_Labels layer = false) ->
      items (MotileWidget._ui_select_labels_layer layers) = ["None"]
      /\ items (RunEditor.layer_selection_box
                  (RunEditor.update_labels_layers layers ed)) = ["None"]
      /\ RunEditor.get_labels_layer (RunEditor.update_labels_layers layers ed)
         = Ok None)
  (* get_labels_layer *)
  /\ (MotileWidget.get_labels_layer w = Ok None
      <-> currentText (MotileWidget.layer_selection_box w) = "None")
  /\ (RunEditor.get_labels_layer ed = Ok None
      <-> currentText (RunEditor.layer_selection_box ed) = "None")
  /\ (currentText (MotileWidget.layer_selection_box w) <> "None" ->
      MotileWidget.get_labels_layer w
      = match getitem (MotileWidget.viewer_layers w)
                (currentText (MotileWidget.layer_selection_box w)) with
        | Ok layer => Ok (Some layer)
        | Raise e => Raise e
        end)
  /\ (currentText (RunEditor.layer_selection_box ed) <> "None" ->
      RunEditor.get_labels_layer ed
      = match getitem (RunEditor.layers ed)
                (currentText (RunEditor.layer_selection_box ed)) with
        | Ok layer => Ok (Some layer)
        | Raise e => Raise e
        end)
  /\ (forall layer, MotileWidget.get_labels_layer w = Ok (Some layer) ->
      name layer = currentText (MotileWidget.layer_selection_box w)
      /\ In layer (MotileWidget.viewer_layers w))
  /\ (forall layer, RunEditor.get_labels_layer ed = Ok (Some layer) ->
      name layer = currentText (RunEditor.layer_selection_box ed)
      /\ In layer (RunEditor.layers ed))
  (* callers *)
  /\ (MotileWidget.get_labels_layer w = Ok None ->
      MotileWidget._generate_tracks w = Ok w)
  /\ (RunEditor.get_labels_layer ed = Ok None ->
      RunEditor.get_run ed h = (Ok None, h)
      /\ RunEditor.emit_run ed h = (Ok ed, h))
  (* a layer of the selected name is returned *)
  /\ (forall layer,
        In layer (MotileWidget.viewer_layers w) ->
        name layer = currentText (MotileWidget.layer_selection_box w) ->
        name layer <> "None" ->
        (exists found,
            MotileWidget.get_labels_layer w = Ok (Some found)
            /\ name found = name layer
            /\ In found (MotileWidget.viewer_layers w))
        /\ (NoDup (List.map name (MotileWidget.viewer_layers w)) ->
            MotileWidget.get_labels_layer w = Ok (Some layer)))
  /\ (forall layer,
        In layer (RunEditor.layers ed) ->
        name layer = currentText (RunEditor.layer_selection_box ed) ->
        name layer <> "None" ->
        (exists found,
            RunEditor.get_labels_layer ed = Ok (Some found)
            /\ name found = name layer
            /\ In found (RunEditor.layers ed))
        /\ (NoDup (List.map name (RunEditor.layers ed)) ->
            RunEditor.get_labels_layer ed = Ok (Some layer)))
  (* no layer of the selected name *)
  /\ (currentText (MotileWidget.layer_selection_box w) <> "None" ->
      (forall layer, In layer (MotileWidget.viewer_layers w) ->
         name layer <> currentText (MotileWidget.layer_selection_box w)) ->
      MotileWidget.get_labels_layer w = Raise KeyError)
  /\ (currentText (RunEditor.layer_selection_box ed) <> "None" ->
      (forall layer, In layer (RunEditor.layers ed) ->
         name layer <> currentText (RunEditor.layer_selection_box ed)) ->
      RunEditor.get_labels_layer ed = Raise KeyError).
Proof.
  assert (HMW : MotileWidget.get_labels_layer w = Ok None
                <-> currentText (MotileWidget.layer_selection_box w) = "None").
  { unfold MotileWidget.get_labels_layer.
    destruct (String.eqb_spec (currentText (MotileWidget.layer_selection_box w)) "None")
      as [E | N].
    - tauto.
    - destruct (getitem _ _); split; intros H; try discriminate; contradiction. }
  assert (HRE : RunEditor.get_labels_layer ed = Ok None
                <-> currentText (RunEditor.layer_selection_box ed) = "None").
  { unfold RunEditor.get_labels_layer.
    destruct (String.eqb_spec (currentText (RunEditor.layer_selection_box ed)) "None")
      as [E | N].
    - tauto.
    - destruct (getitem _ _); split; intros H; try discriminate; contradiction. }
  destruct (select_box_spec layers) as [Hitems Hcur].
  destruct (update_labels_layers_spec layers ed) as [Hl Hbox].
  split; [split |
    split; [| split; [exact HMW | split; [exact HRE |
    split; [| split; [| split; [| split; [| split; [| split;
    [| split; [| split; [| split]]]]]]]]]]]].
  - exact Hitems.
  - rewrite Hbox. exact Hitems.
  - intros Hno. rewrite Hbox, Hitems, (no_labels_names layers Hno).
    repeat split.
    unfold RunEditor.get_labels_layer. rewrite Hbox.
    unfold currentText. rewrite Hcur, Hitems, (no_labels_names layers Hno).
    reflexivity.
  - intros N. unfold MotileWidget.get_labels_layer.
    apply String.eqb_neq in N. rewrite N. reflexivity.
  - intros N. unfold RunEditor.get_labels_layer.
    apply String.eqb_neq in N. rewrite N. reflexivity.
  - intros layer. unfold MotileWidget.get_labels_layer.
    destruct (String.eqb _ "None"); [discriminate |].
    destruct (getitem _ _) as [l |] eqn:E; [| discriminate].
    intros H; inversion H; subst. apply getitem_found in E. tauto.
  - intros layer. unfold RunEditor.get_labels_layer.
    destruct (String.eqb _ "None"); [discriminate |].
    destruct (getitem _ _) as [l |] eqn:E; [| discriminate].
    intros H; inversion H; subst. apply getitem_found in E. tauto.
  - intros H. unfold MotileWidget._generate_tracks. rewrite H. reflexivity.
  - intros H. unfold RunEditor.emit_run, RunEditor.get_run. rewrite H. auto.
  - intros layer Hin Htext Hnone.
    unfold MotileWidget.get_labels_layer. rewrite <- Htext.
    apply String.eqb_neq in Hnone. rewrite Hnone. split.
    + destruct (getitem_present _ layer Hin) as (found & -> & Hname & Hfound).
      exists found. auto.
    + intros Hnd. rewrite (getitem_unique _ layer Hnd Hin). reflexivity.
  - intros layer Hin Htext Hnone.
    unfold RunEditor.get_labels_layer. rewrite <- Htext.
    apply String.eqb_neq in Hnone. rewrite Hnone. split.
    + destruct (getitem_present _ layer Hin) as (found & -> & Hname & Hfound).
      exists found. auto.
    + intros Hnd. rewrite (getitem_unique _ layer Hnd Hin). reflexivity.
  - intros N Hno. unfold MotileWidget.get_labels_layer.
    apply String.eqb_neq in N. rewrite N.
    rewrite (getitem_absent _ _ Hno). reflexivity.
  - intros N Hno. unfold RunEditor.get_labels_layer.
    apply String.eqb_neq in N. rewrite N.
    rewrite (getitem_absent _ _ Hno). reflexivity.
Qed.

End LayerSelectionFacts.

(** A viewer that shows only an image: the box holds "None", no worker is
    started and no run is made.  A viewer that shows an image and labels:
    the labels layer "seg" is returned, in the widget and in the editor. *)
Lemma None_sentinel_witness :
  Qt.items (MotileWidget._ui_select_labels_layer [Samples.image_layer]) = ["None"]
  /\ MotileWidget._generate_tracks Samples.widget_without_labels
     = Ok Samples.widget_without_labels
  /\ RunEditor.get_run Samples.run_editor_without_labels [Samples.default_params]
     = (Ok None, [Samples.default_params])
  /\ MotileWidget.get_labels_layer Samples.widget_with_image_and_labels
     = Ok (Some Samples.labels_layer)
  /\ RunEditor.get_labels_layer Samples.run_editor_with_labels
     = Ok (Some Samples.labels_layer).
Proof.
  pose proof (None_sentinel [Samples.image_layer] Samples.widget_without_labels
                Samples.run_editor_without_labels [Samples.default_params])
    as (_ & Hpop & HMW & HRE & _ & _ & _ & _ & Hgen & Hrun & _).
  pose proof (None_sentinel [Samples.image_layer; Samples.labels_layer]
                Samples.widget_with_image_and_labels
                Samples.run_editor_with_labels [Samples.default_params])
    as (_ & _ & _ & _ & _ & _ & _ & _ & _ & _ & Hw & Hed & _).
  split; [| split; [| split; [| split]]].
  - apply Hpop. intros layer [<- | []]. reflexivity.
  - apply Hgen, HMW. reflexivity.
  - apply Hrun, HRE. reflexivity.
  - apply (Hw Samples.labels_layer).
    + simpl. auto.
    + reflexivity.
    + discriminate.
    + apply (bool_decide_unpack _). vm_compute. exact I.
  - apply (Hed Samples.labels_layer).
    + simpl. auto.
    + reflexivity.
    + discriminate.
    + apply (bool_decide_unpack _). vm_compute. exact I.
Defined.

(** ** The store *)

Section StoreFacts.

Lemma store_attr_length r n v (h : heap) :
  length (store_attr r n v h) = length h.
Proof.
  unfold store_attr. destruct (h !! r); [apply length_insert | reflexivity].
Qed.

Lemma store_attr_lookup_ne r r' n v (h : heap) :
  r <> r' -> store_attr r n v h !! r' = h !! r'.
Proof.
  intros Hne. unfold store_attr.
  destruct (h !! r); [apply list_lookup_insert_ne; exact Hne | reflexivity].
Qed.

Lemma store_attr_lookup_eq r n v (h : heap) p :
  h !! r = Some p -> store_attr r n v h !! r = Some (setattr n v p).
Proof.
  intros Hp. unfold store_attr. rewrite Hp.
  apply list_lookup_insert_eq. apply lookup_lt_Some in Hp. exact Hp.
Qed.

Lemma getattr_setattr n v p : getattr n (setattr n v p) = v.
Proof. destruct p, n; reflexivity. Qed.

Lemma alloc_lookup_new p (h : heap) :
  snd (alloc p h) !! fst (alloc p h) = Some p.
Proof.
  unfold alloc; simpl. rewrite lookup_app_r by lia.
  replace (length h - length h)%nat with 0%nat by lia. reflexivity.
Qed.

Lemma alloc_lookup_old p (h : heap) r q :
  h !! r = Some q -> snd (alloc p h) !! r = Some q.
Proof.
  intros Hq. unfold alloc; simpl. apply lookup_app_l_Some. exact Hq.
Qed.

End StoreFacts.

(** ** [RunEditor.get_run] *)

Section GetRunFacts.
Import Qt Napari RunEditor.

Lemma edit_params_frame (ed : RunEditor) edits (h : heap) r :
  r <> solver_params_widget ed ->
  edit_params ed edits h !! r = h !! r.
Proof.
  intros Hne. revert h.
  induction edits as [| [n v] rest IH]; intros h; simpl; [reflexivity |].
  rewrite IH. apply store_attr_lookup_ne. congruence.
Qed.

(** C6.  A run holds a parameter snapshot.  With a labels layer selected,
    [get_run] returns a run whose [solver_params] is a new object holding
    the values the editor's parameters have at that moment; whatever the
    editor later writes to its own parameter object, the run's parameters
    keep those values.  The run's [input_segmentation] is the layer's data
    with an axis of length 1 inserted at position 1. *)
Theorem get_run_snapshot (ed : RunEditor) (h : heap)
  (p : SolverParams) (layer : Layer)
  (Hparams : h !! solver_params_widget ed = Some p)
  (Hlayer : get_labels_layer ed = Ok (Some layer))
  (Hndim : (1 <= length (shape (data layer)))%nat) :
  exists run h',
    get_run ed h = (Ok (Some run), h')
    /\ run_name run = get_run_name ed
    /\ solver_params run <> solver_params_widget ed
    /\ h !! solver_params run = None
    /\ h' !! solver_params run = Some p
    /\ h' !! solver_params_widget ed = Some p
    /\ (forall edits, edit_params ed edits h' !! solver_params run = Some p)
    /\ shape (input_segmentation run)
       = take 1 (shape (data layer)) ++ 1%nat :: drop 1 (shape (data layer))
    /\ flat (input_segmentation run) = flat (data layer).
Proof.
  unfold get_run. rewrite Hlayer. unfold expand_dims.
  destruct (Nat.leb_spec 1 (length (shape (data layer)))) as [_ | Hlt]; [| lia].
  unfold copy. rewrite Hparams.
  eexists _, _. split; [reflexivity |]. simpl.
  assert (Hlen : (solver_params_widget ed < length h)%nat)
    by (apply lookup_lt_Some in Hparams; exact Hparams).
  assert (Hnew : (h ++ [p]) !! length h = Some p).
  { rewrite lookup_app_r by lia.
    replace (length h - length h)%nat with 0%nat by lia. reflexivity. }
  repeat split.
  - lia.
  - apply lookup_ge_None. lia.
  - exact Hnew.
  - apply lookup_app_l_Some. exact Hparams.
  - intros edits. rewrite edit_params_frame by lia. exact Hnew.
Qed.

End GetRunFacts.

(** A run made from the "seg" layer keeps the default parameters through
    two later edits; its segmentation has shape 3 x 1 x 2 x 2. *)
Lemma get_run_snapshot_witness :
  exists run h',
    RunEditor.get_run Samples.run_editor_with_labels [Samples.default_params]
      = (Ok (Some run), h')
    /\ h' !! RunEditor.solver_params run = Some Samples.default_params
    /\ RunEditor.edit_params Samples.run_editor_with_labels
         [(Param.appear_cost, None); (Param.iou_weight, Some 7%Q)] h'
       !! RunEditor.solver_params run = Some Samples.default_params
    /\ shape (RunEditor.input_segmentation run) = [3; 1; 2; 2]%nat.
Proof.
  destruct (get_run_snapshot Samples.run_editor_with_labels
              [Samples.default_params] Samples.default_params
              Samples.labels_layer)
    as (run & h' & Hrun & _ & _ & _ & Hp & _ & Hedits & Hshape & _).
  - reflexivity.
  - reflexivity.
  - simpl. lia.
  - exists run, h'. repeat split; [exact Hrun | exact Hp | apply Hedits | exact Hshape].
Defined.

(** ** Parameter controls of [_motile_widget.py] *)

Section ParamControlFacts.
Import MotileWidget.
Variable qt_bound : Q -> Q -> Q -> Q.

Local Abbreviation setValue := (setValue qt_bound).
Local Abbreviation update_value := (update_value qt_bound).
Local Abbreviation edit_value := (edit_value qt_bound).

(** The slot wrote its value to the bound field of the bound object. *)
Ltac slot_written Hp :=
  unfold changeEvent, param_slot; simpl;
  rewrite (store_attr_lookup_eq _ _ _ _ _ Hp); simpl;
  rewrite getattr_setattr; reflexivity.

(** Unchecking the enable box of a one-spin-box row writes [None] to the
    bound parameter. *)
Lemma uncheck_sets_None (sb : ParamSpinBox) (h : heap) p :
  sb_enabled sb = true ->
  h !! sb_solver_params sb = Some p ->
  let '(g', h') := click_enable_control (mkParamGroup (Some true) [sb]) h in
  enable_control g' = Some false
  /\ getattr (sb_param_name sb) <$> h' !! sb_solver_params sb = Some None.
Proof.
  intros He Hp. unfold click_enable_control, setChecked; simpl.
  unfold setEnabled. rewrite He. simpl.
  split; [reflexivity | slot_written Hp].
Qed.

(** Checking it writes the value the spin box shows. *)
Lemma check_sets_shown_value (sb : ParamSpinBox) (h : heap) p :
  sb_enabled sb = false ->
  h !! sb_solver_params sb = Some p ->
  let '(g', h') := click_enable_control (mkParamGroup (Some false) [sb]) h in
  enable_control g' = Some true
  /\ getattr (sb_param_name sb) <$> h' !! sb_solver_params sb
     = Some (Some (sb_value sb)).
Proof.
  intros He Hp. unfold click_enable_control, setChecked; simpl.
  unfold setEnabled. rewrite He. simpl.
  split; [reflexivity | slot_written Hp].
Qed.

(** Editing an enabled spin box to a value it does not show yet writes
    the value the box keeps. *)
Lemma edit_sets_value (c : option bool) (sb : ParamSpinBox) (h : heap) p (v : Q) :
  sb_enabled sb = true ->
  h !! sb_solver_params sb = Some p ->
  Qeq_bool (qt_bound (sb_minimum sb) (sb_maximum sb) v) (sb_value sb) = false ->
  let '(g', h') := edit_value 0 v (mkParamGroup c [sb]) h in
  sb_value <$> spinboxes g' !! 0%nat
    = Some (qt_bound (sb_minimum sb) (sb_maximum sb) v)
  /\ getattr (sb_param_name sb) <$> h' !! sb_solver_params sb
     = Some (Some (qt_bound (sb_minimum sb) (sb_maximum sb) v)).
Proof.
  intros He Hp Hneq. unfold MotileWidget.edit_value; simpl. rewrite He.
  unfold MotileWidget.setValue. rewrite Hneq. simpl.
  split; [reflexivity | slot_written Hp].
Qed.

(** [update_value] with a parameter that is [None] unchecks the enable
    control. *)
Lemma update_value_None_unchecks i params (g : ParamGroup) (h : heap) sb p c :
  spinboxes g !! i = Some sb ->
  h !! params = Some p ->
  getattr (sb_param_name sb) p = None ->
  enable_control g = Some c ->
  enable_control (fst (update_value i params g h)) = Some false.
Proof.
  intros Hsb Hp Hnone Hc. unfold MotileWidget.update_value.
  rewrite Hsb, Hp, Hnone. unfold _disable, setChecked. rewrite Hc.
  destruct c; simpl.
  - destruct (setEnabled_all false (spinboxes g) h). reflexivity.
  - exact Hc.
Qed.

(** [update_value] with a parameter that is set never touches the enable
    control: there is no slot that checks it. *)
Lemma update_value_set_keeps_enable_control i params (g : ParamGroup) (h : heap)
  sb p v :
  spinboxes g !! i = Some sb ->
  h !! params = Some p ->
  getattr (sb_param_name sb) p = Some v ->
  enable_control (fst (update_value i params g h)) = enable_control g.
Proof.
  intros Hsb Hp Hv. unfold MotileWidget.update_value.
  rewrite Hsb, Hp, Hv.
  destruct (MotileWidget.setValue qt_bound v sb h). reflexivity.
Qed.

(** C4, where the code departs from it.  The user unchecks "Appear Cost":
    the bound parameter becomes [None].  The row is then updated from the
    parameters of a loaded run, where [appear_cost = 30].  The enable box
    stays unchecked and the spin box stays disabled although the parameter
    it was updated from is not [None]. *)
Theorem update_value_leaves_enable_box_unchecked :
  let '(g1, h1) :=
    click_enable_control Samples.appear_cost_row Samples.two_param_objects in
  let '(g2, h2) := update_value 0 1 g1 h1 in
  getattr Param.appear_cost <$> h1 !! 0%nat = Some None
  /\ getattr Param.appear_cost <$> h2 !! 1%nat = Some (Some 30%Q)
  /\ enable_control g2 = Some false
  /\ sb_enabled <$> spinboxes g2 !! 0%nat = Some false.
Proof.
  simpl. unfold MotileWidget.update_value; simpl.
  unfold MotileWidget.setValue; simpl.
  destruct (Qeq_bool (qt_bound 0 10000 30) 30); simpl; repeat split.
Qed.

End ParamControlFacts.

(** ** The optional rows of [params_editor.py] *)

Section OptionalEditableParamFacts.
Import ParamsEditor.
Context {Params V : Type}.
Variable getattribute : Params -> option V.
Variable setattribute : option V -> Params -> Params.
Variable same_value : V -> V -> bool.

(** X13.  After [update_from_params] the check box of an optional row is
    checked, and its value control enabled, exactly when the parameter it
    was updated from is not [None], whatever the row looked like before. *)
Lemma update_from_params_checked_iff (params : Params)
  (row : OptionalEditableParam) (solver_params : Params) :
  let row' := fst (update_from_params getattribute setattribute same_value
                     params row solver_params) in
  param_label_checked row' = is_not_None (getattribute params)
  /\ param_value_enabled row' = is_not_None (getattribute params).
Proof.
  cbv zeta. unfold update_from_params, setChecked, toggle_enable,
    param_value_update_value.
  destruct (getattribute params) as [v |]; simpl;
    destruct (param_label_checked row) eqn:E; simpl;
    try destruct (same_value v (param_value_shown row)); simpl; auto.
Qed.

End OptionalEditableParamFacts.

(** ** Saving and loading a run *)

Section LoadRunFacts.
Import Qt MotileWidget.
Variable qt_bound : Q -> Q -> Q -> Q.
Variable run_directory : string -> SolverParams -> string.

Lemma param_slot_frame r sb v (h : heap) :
  sb_solver_params sb <> r -> param_slot sb v h !! r = h !! r.
Proof. intros Hne. unfold param_slot. apply store_attr_lookup_ne. exact Hne. Qed.

Lemma setEnabled_frame r b sb (h : heap) :
  sb_solver_params sb <> r ->
  snd (setEnabled b sb h) !! r = h !! r
  /\ sb_solver_params (fst (setEnabled b sb h)) = sb_solver_params sb.
Proof.
  intros Hne. unfold setEnabled.
  destruct (Bool.eqb (sb_enabled sb) b); simpl; [auto |].
  split; [| reflexivity].
  unfold changeEvent; simpl. destruct b; apply param_slot_frame; exact Hne.
Qed.

Lemma setValue_frame r v sb (h : heap) :
  sb_solver_params sb <> r ->
  snd (setValue qt_bound v sb h) !! r = h !! r
  /\ sb_solver_params (fst (setValue qt_bound v sb h)) = sb_solver_params sb.
Proof.
  intros Hne. unfold setValue.
  destruct (Qeq_bool _ _); simpl; [auto |].
  split; [| reflexivity]. apply param_slot_frame. exact Hne.
Qed.

Lemma setEnabled_all_frame r b sbs (h : heap) :
  bound_elsewhere r sbs ->
  snd (setEnabled_all b sbs h) !! r = h !! r
  /\ bound_elsewhere r (fst (setEnabled_all b sbs h)).
Proof.
  unfold bound_elsewhere. intros H. revert h.
  induction H as [| sb rest Hsb Hrest IH]; intros h; simpl.
  - split; [reflexivity | constructor].
  - destruct (setEnabled_frame r b sb h Hsb) as [Hh Href].
    destruct (setEnabled b sb h) as [sb' h1]; simpl in *.
    destruct (IH h1) as [Hh2 Hall].
    destruct (setEnabled_all b rest h1) as [rest' h2]; simpl in *.
    split; [congruence |]. constructor; [congruence | exact Hall].
Qed.

Lemma setChecked_frame r b g (h : heap) :
  bound_elsewhere r (spinboxes g) ->
  snd (setChecked b g h) !! r = h !! r
  /\ bound_elsewhere r (spinboxes (fst (setChecked b g h))).
Proof.
  intros H. unfold setChecked.
  destruct (enable_control g) as [c |]; [| auto].
  destruct (Bool.eqb c b); [auto |].
  destruct (setEnabled_all_frame r b (spinboxes g) h H) as [Hh Hall].
  destruct (setEnabled_all b (spinboxes g) h) as [sbs h']; simpl in *. auto.
Qed.

Lemma update_value_frame r i params g (h : heap) :
  bound_elsewhere r (spinboxes g) ->
  snd (update_value qt_bound i params g h) !! r = h !! r
  /\ bound_elsewhere r (spinboxes (fst (update_value qt_bound i params g h))).
Proof.
  intros H. unfold update_value.
  destruct (spinboxes g !! i) as [sb |] eqn:Hsb; [| auto].
  destruct (h !! params) as [p |]; [| auto].
  destruct (getattr (sb_param_name sb) p) as [v |].
  - assert (Hne : sb_solver_params sb <> r).
    { unfold bound_elsewhere in H. rewrite Forall_lookup in H.
      exact (H i sb Hsb). }
    destruct (setValue_frame r v sb h Hne) as [Hh Href].
    destruct (setValue qt_bound v sb h) as [sb' h']; simpl in *.
    split; [exact Hh |].
    apply Forall_insert; [exact H | congruence].
  - apply setChecked_frame. exact H.
Qed.

Lemma update_values_from_frame r n i params g (h : heap) :
  bound_elsewhere r (spinboxes g) ->
  snd (update_values_from qt_bound i n params g h) !! r = h !! r
  /\ bound_elsewhere r
       (spinboxes (fst (update_values_from qt_bound i n params g h))).
Proof.
  revert i g h. induction n as [| n IH]; intros i g h H; simpl; [auto |].
  destruct (update_value_frame r i params g h H) as [Hh Hall].
  destruct (update_value qt_bound i params g h) as [g1 h1]; simpl in *.
  destruct (IH (S i) g1 h1 Hall) as [Hh2 Hall2].
  split; [congruence | exact Hall2].
Qed.

(** The slots of [update_signal] write only to the objects the spin boxes
    were connected to. *)
Lemma update_groups_frame r params gs (h : heap) :
  Forall (fun g => bound_elsewhere r (spinboxes g)) gs ->
  snd (update_groups qt_bound params gs h) !! r = h !! r.
Proof.
  intros H. revert h.
  induction H as [| g rest Hg Hrest IH]; intros h; simpl; [reflexivity |].
  destruct (update_values_from_frame r (length (spinboxes g)) 0 params g h Hg)
    as [Hh _].
  destruct (update_values_from qt_bound 0 (length (spinboxes g)) params g h)
    as [g' h1]; simpl in *.
  specialize (IH h1).
  destruct (update_groups qt_bound params rest h1) as [rest' h2]; simpl in *.
  congruence.
Qed.

(** The controls write to the object they were connected to, whichever
    object the widget's [solver_params] attribute names by now. *)
Lemma controls_write_to_connected_object_only r (g : ParamGroup) (h : heap) :
  bound_elsewhere r (spinboxes g) ->
  snd (click_enable_control g h) !! r = h !! r
  /\ (forall i v, snd (edit_value qt_bound i v g h) !! r = h !! r).
Proof.
  intros H. split.
  - unfold click_enable_control.
    destruct (enable_control g); [| reflexivity].
    apply setChecked_frame. exact H.
  - intros i v. unfold edit_value.
    destruct (spinboxes g !! i) as [sb |] eqn:Hsb; [| reflexivity].
    destruct (sb_enabled sb); [| reflexivity].
    assert (Hne : sb_solver_params sb <> r).
    { unfold bound_elsewhere in H. rewrite Forall_lookup in H.
      exact (H i sb Hsb). }
    destruct (setValue_frame r v sb h Hne) as [Hh _].
    destruct (setValue qt_bound v sb h). exact Hh.
Qed.

(** Loading a directory that a save wrote and that the load selection
    shows: the name field holds the saved run name, the widget's parameter
    object is a new object with the saved values, and the update signal
    was emitted with it. *)
Lemma load_run_of_selected_directory
  (w : MotileWidget) (h : heap) (base_path : gmap string StoredRun)
  (p : SolverParams) (w2 : MotileWidget) (h2 : heap)
  (Hparams : h !! solver_params w = Some p)
  (Hselected : currentText (load_tracks_selection w2)
               = run_directory (get_run_name w) p)
  (Hsentinel : run_directory (get_run_name w) p <> "None")
  (Hbound : Forall (fun g => Forall (fun sb => (sb_solver_params sb < length h2)%nat)
                                (spinboxes g))
              (param_groups w2)) :
  exists w' h',
    _load_run qt_bound w2 h2 (_save_run run_directory w h base_path) = Ok (w', h')
    /\ run_name w' = get_run_name w
    /\ h' !! solver_params w' = Some p
    /\ h2 !! solver_params w' = None
    /\ update_signals w' = update_signals w2 ++ [solver_params w'].
Proof.
  unfold _load_run, _save_run, Run_save, Run_load. simpl.
  rewrite Hparams, Hselected.
  apply String.eqb_neq in Hsentinel. rewrite Hsentinel.
  rewrite lookup_insert_eq. simpl.
  unfold emit_update_signal; simpl.
  assert (Hframe :
    snd (update_groups qt_bound (length h2) (param_groups w2) (h2 ++ [p]))
      !! length h2 = (h2 ++ [p]) !! length h2).
  { apply update_groups_frame.
    eapply Forall_impl; [exact Hbound |].
    intros g Hg. unfold bound_elsewhere.
    eapply Forall_impl; [exact Hg |]. simpl. intros sb Hlt. lia. }
  destruct (update_groups qt_bound (length h2) (param_groups w2) (h2 ++ [p]))
    as [gs h'] eqn:E; simpl in *.
  eexists _, _. split; [reflexivity |]. simpl.
  repeat split.
  - rewrite Hframe. rewrite lookup_app_r by lia.
    replace (length h2 - length h2)%nat with 0%nat by lia. reflexivity.
  - apply lookup_ge_None. lia.
Qed.

End LoadRunFacts.


(** ** More on [construct_solver] *)

Section ConstructSolverMore.
Import MotileSolver.
Context {DiGraph : Type}.
Implicit Types (g : DiGraph) (p : SolverParams).

(** X1.  The costs of a constructed solver are registered in the fixed
    order Appear, Disappear, Split, Merge, "distance", "iou", each at most
    once: their registered names form a sublist of that list, so no two
    costs of a solver share a name and a solver has at most six. *)
Theorem construct_solver_cost_names_distinct g p :
  let names := List.map registered_name (costs (construct_solver g p)) in
  sublist names ["Appear"; "Disappear"; "Split"; "Merge"; "distance"; "iou"]
  /\ NoDup names
  /\ (length (costs (construct_solver g p)) <= 6)%nat.
Proof.
  cbv zeta. rewrite construct_solver_costs.
  assert (Hsub : sublist (List.map registered_name (cost_terms p))
                   ["Appear"; "Disappear"; "Split"; "Merge"; "distance"; "iou"]).
  { unfold cost_terms.
    destruct (appear_cost p), (disappear_cost p), (division_cost p),
      (merge_cost p), (distance_weight p), (iou_weight p); simpl;
      repeat first [apply sublist_nil | apply sublist_skip | apply sublist_cons]. }
  split; [exact Hsub |]. split.
  - eapply sublist_NoDup; [| exact Hsub].
    apply (bool_decide_unpack _). vm_compute. exact I.
  - apply sublist_length in Hsub. rewrite length_map in Hsub. exact Hsub.
Qed.

(** X2.  Switching one parameter off removes exactly the cost term that
    parameter guards and leaves the others as they were: for every
    parameter other than the two offsets, the costs of the solver built
    after [params.n = None] are those of the solver built before, without
    the term guarded by [n].  (For a parameter that guards no cost, the
    costs are unchanged.) *)
Theorem setting_None_removes_exactly_the_guarded_cost g p (n : Param.name)
  (Hn : is_offset n = false) :
  costs (construct_solver g (setattr n None p))
  = List.filter (fun cn => negb (bool_decide (guard_of (fst cn) = n)))
      (costs (construct_solver g p)).
Proof.
  rewrite !construct_solver_costs. unfold cost_terms.
  destruct p as [a b c d e f m dw dof iw iof].
  destruct n; try discriminate Hn; simpl;
    destruct d, e, f, m, dw, iw; reflexivity.
Qed.

End ConstructSolverMore.

(** Without a merge cost, the default parameters give the other five
    terms. *)
Lemma setting_None_removes_exactly_the_guarded_cost_witness :
  List.map MotileSolver.registered_name
    (MotileSolver.costs
       (MotileSolver.construct_solver tt
          (setattr Param.merge_cost None Samples.default_params)))
  = ["Appear"; "Disappear"; "Split"; "distance"; "iou"].
Proof.
  rewrite (setting_None_removes_exactly_the_guarded_cost tt
             Samples.default_params Param.merge_cost eq_refl).
  reflexivity.
Defined.

(** ** More on the parameter controls of [_motile_widget.py] *)

Section ParamGroupMore.
Import MotileWidget.
Variable qt_bound : Q -> Q -> Q -> Q.

Lemma getattr_setattr_ne n m v p :
  n <> m -> getattr n (setattr m v p) = getattr n p.
Proof. intros Hne. destruct p, n, m; try reflexivity; congruence. Qed.

Lemma store_attr_is_Some r n v (h : heap) r' :
  is_Some (h !! r') -> is_Some (store_attr r n v h !! r').
Proof.
  intros Hs. apply lookup_lt_is_Some. rewrite store_attr_length.
  apply lookup_lt_is_Some. exact Hs.
Qed.

(** A field that is [None] stays [None] when [None] is written anywhere. *)
Lemma None_stays_None r n r' n' (h : heap) :
  getattr n <$> h !! r = Some None ->
  getattr n <$> store_attr r' n' None h !! r = Some None.
Proof.
  intros H. destruct (decide (r' = r)) as [-> | Hne].
  - destruct (h !! r) as [p |] eqn:Hp; [| discriminate].
    rewrite (store_attr_lookup_eq _ _ _ _ _ Hp). simpl in *.
    destruct (decide (n = n')) as [-> | Hn].
    + rewrite getattr_setattr. reflexivity.
    + rewrite getattr_setattr_ne by exact Hn. exact H.
  - rewrite store_attr_lookup_ne by exact Hne. exact H.
Qed.

Lemma setEnabled_enabled b sb (h : heap) :
  sb_enabled (fst (setEnabled b sb h)) = b
  /\ sb_param_name (fst (setEnabled b sb h)) = sb_param_name sb
  /\ sb_solver_params (fst (setEnabled b sb h)) = sb_solver_params sb.
Proof.
  unfold setEnabled. destruct (Bool.eqb (sb_enabled sb) b) eqn:E; simpl.
  - apply Bool.eqb_prop in E. auto.
  - auto.
Qed.

Lemma setEnabled_all_enabled b sbs (h : heap) :
  Forall (fun sb => sb_enabled sb = b) (fst (setEnabled_all b sbs h)).
Proof.
  revert h. induction sbs as [| sb rest IH]; intros h; simpl; [constructor |].
  pose proof (setEnabled_enabled b sb h) as (He & _ & _).
  destruct (setEnabled b sb h) as [sb' h1]; simpl in *.
  specialize (IH h1).
  destruct (setEnabled_all b rest h1) as [rest' h2]; simpl in *.
  constructor; assumption.
Qed.

Lemma setValue_enabled v sb (h : heap) :
  sb_enabled (fst (setValue qt_bound v sb h)) = sb_enabled sb.
Proof. unfold setValue. destruct (Qeq_bool _ _); reflexivity. Qed.

Lemma setChecked_enabled_as_checked b g (h : heap) :
  enabled_as_checked g -> enabled_as_checked (fst (setChecked b g h)).
Proof.
  intros Hg. unfold setChecked.
  destruct (enable_control g) as [c |] eqn:Hc; [| exact Hg].
  destruct (Bool.eqb c b); [exact Hg |].
  pose proof (setEnabled_all_enabled b (spinboxes g) h) as Hall.
  destruct (setEnabled_all b (spinboxes g) h) as [sbs h']; simpl in *.
  intros checked Hchecked; simpl in *. inversion Hchecked; subst. exact Hall.
Qed.

Lemma setValue_enabled_as_checked i v sb g (h : heap) :
  spinboxes g !! i = Some sb ->
  enabled_as_checked g ->
  enabled_as_checked
    (mkParamGroup (enable_control g)
       (<[i := fst (setValue qt_bound v sb h)]> (spinboxes g))).
Proof.
  intros Hsb Hg checked Hchecked; simpl in *.
  specialize (Hg checked Hchecked).
  apply Forall_insert; [exact Hg |].
  rewrite setValue_enabled. rewrite Forall_lookup in Hg. exact (Hg i sb Hsb).
Qed.

(** X3.  A spin box is enabled exactly when the enable control of its row
    or group is checked, and no action on the group breaks this: not a
    click on the enable control, not an edit of a spin box, not an update
    from a parameter object. *)
Theorem enabled_as_checked_preserved (g : ParamGroup) (h : heap)
  (Hg : enabled_as_checked g) :
  enabled_as_checked (fst (click_enable_control g h))
  /\ (forall i v, enabled_as_checked (fst (edit_value qt_bound i v g h)))
  /\ (forall i params,
        enabled_as_checked (fst (update_value qt_bound i params g h))).
Proof.
  split; [| split].
  - unfold click_enable_control.
    destruct (enable_control g); [| exact Hg].
    apply setChecked_enabled_as_checked. exact Hg.
  - intros i v. unfold edit_value.
    destruct (spinboxes g !! i) as [sb |] eqn:Hsb; [| exact Hg].
    destruct (sb_enabled sb); [| exact Hg].
    pose proof (setValue_enabled_as_checked i v sb g h Hsb Hg) as H.
    destruct (setValue qt_bound v sb h); exact H.
  - intros i params. unfold update_value.
    destruct (spinboxes g !! i) as [sb |] eqn:Hsb; [| exact Hg].
    destruct (h !! params) as [p |]; [| exact Hg].
    destruct (getattr (sb_param_name sb) p) as [v |].
    + pose proof (setValue_enabled_as_checked i v sb g h Hsb Hg) as H.
      destruct (setValue qt_bound v sb h); exact H.
    + apply setChecked_enabled_as_checked. exact Hg.
Qed.

(** X4.  Unchecking a feature cost group writes [None] to both the weight
    and the offset of the connected parameter object; checking it again
    writes back the two shown values and leaves the group as it was.  So
    through the group's check box the weight and the offset are [None]
    together. *)
Theorem feature_cost_group_toggle (weight_name offset_name : Param.name)
  (r : ref) (weight offset : Q) (h : heap) (p : SolverParams)
  (Hp : h !! r = Some p)
  (Hnames : weight_name <> offset_name) :
  let g := feature_cost_group weight_name offset_name r weight offset in
  let off := click_enable_control g h in
  let on := click_enable_control (fst off) (snd off) in
  enable_control (fst off) = Some false
  /\ getattr weight_name <$> snd off !! r = Some None
  /\ getattr offset_name <$> snd off !! r = Some None
  /\ fst on = g
  /\ getattr weight_name <$> snd on !! r = Some (Some weight)
  /\ getattr offset_name <$> snd on !! r = Some (Some offset).
Proof.
  cbv zeta. unfold feature_cost_group, click_enable_control, setChecked.
  simpl. unfold setEnabled; simpl. unfold changeEvent, param_slot; simpl.
  pose proof (store_attr_lookup_eq r weight_name None h p Hp) as H1.
  pose proof (store_attr_lookup_eq r offset_name None _ _ H1) as H2.
  pose proof (store_attr_lookup_eq r weight_name (Some weight) _ _ H2) as H3.
  pose proof (store_attr_lookup_eq r offset_name (Some offset) _ _ H3) as H4.
  rewrite H2, H4. simpl.
  rewrite !getattr_setattr.
  rewrite !(getattr_setattr_ne weight_name offset_name) by exact Hnames.
  rewrite !getattr_setattr. repeat split.
Qed.

Lemma setEnabled_false_keeps_None r n sb (h : heap) :
  getattr n <$> h !! r = Some None ->
  getattr n <$> snd (setEnabled false sb h) !! r = Some None.
Proof.
  intros H. unfold setEnabled.
  destruct (Bool.eqb (sb_enabled sb) false); simpl; [exact H |].
  unfold changeEvent, param_slot; simpl. apply None_stays_None. exact H.
Qed.

Lemma setEnabled_all_false_keeps_None r n sbs (h : heap) :
  getattr n <$> h !! r = Some None ->
  getattr n <$> snd (setEnabled_all false sbs h) !! r = Some None.
Proof.
  revert h. induction sbs as [| sb rest IH]; intros h H; simpl; [exact H |].
  pose proof (setEnabled_false_keeps_None r n sb h H) as H1.
  destruct (setEnabled false sb h) as [sb' h1]; simpl in *.
  specialize (IH h1 H1).
  destruct (setEnabled_all false rest h1) as [rest' h2]; exact IH.
Qed.

Lemma setEnabled_is_Some b sb (h : heap) r :
  is_Some (h !! r) -> is_Some (snd (setEnabled b sb h) !! r).
Proof.
  intros Hs. unfold setEnabled.
  destruct (Bool.eqb (sb_enabled sb) b); simpl; [exact Hs |].
  unfold changeEvent, param_slot. destruct b; simpl;
    apply store_attr_is_Some; exact Hs.
Qed.

(** Disabling enabled spin boxes writes [None] to each connected field. *)
Lemma setEnabled_all_false_writes_None sbs (h : heap) :
  Forall (fun sb => sb_enabled sb = true) sbs ->
  Forall (fun sb => is_Some (h !! sb_solver_params sb)) sbs ->
  Forall (fun sb => getattr (sb_param_name sb)
                      <$> snd (setEnabled_all false sbs h) !! sb_solver_params sb
                    = Some None) sbs.
Proof.
  intros Hen. revert h. induction Hen as [| sb rest He Hrest IH];
    intros h Hsome; [constructor |].
  inversion Hsome as [| ? ? [p Hp] Hsome_rest]; subst. simpl.
  assert (H1 : getattr (sb_param_name sb)
                 <$> snd (setEnabled false sb h) !! sb_solver_params sb
               = Some None).
  { unfold setEnabled. rewrite He. simpl. unfold changeEvent, param_slot; simpl.
    rewrite (store_attr_lookup_eq _ _ _ _ _ Hp). simpl.
    rewrite getattr_setattr. reflexivity. }
  assert (Hsome1 : Forall (fun sb0 => is_Some (snd (setEnabled false sb h)
                                                !! sb_solver_params sb0)) rest).
  { eapply Forall_impl; [exact Hsome_rest |].
    intros sb0 Hs. apply setEnabled_is_Some. exact Hs. }
  destruct (setEnabled false sb h) as [sb' h1]; simpl in *.
  specialize (IH h1 Hsome1).
  pose proof (setEnabled_all_false_keeps_None _ _ rest h1 H1) as Hkeep.
  destruct (setEnabled_all false rest h1) as [rest' h2]; simpl in *.
  constructor; assumption.
Qed.

(** X5.  When a checked row or group is updated from a parameter object
    in which the parameter of one of its spin boxes is [None], the enable
    control is unchecked, every spin box of the group is disabled, and
    every parameter the group's spin boxes are connected to becomes
    [None]: a weight that is [None] switches the offset off as well. *)
Theorem update_value_None_switches_group_off
  (i : nat) (params : ref) (g : ParamGroup) (h : heap)
  (sb : ParamSpinBox) (p : SolverParams)
  (Hsb : spinboxes g !! i = Some sb)
  (Hp : h !! params = Some p)
  (Hnone : getattr (sb_param_name sb) p = None)
  (Hchecked : enable_control g = Some true)
  (Henabled : enabled_as_checked g)
  (Hconnected : Forall (fun sb => is_Some (h !! sb_solver_params sb)) (spinboxes g)) :
  let r := update_value qt_bound i params g h in
  enable_control (fst r) = Some false
  /\ Forall (fun sb => sb_enabled sb = false) (spinboxes (fst r))
  /\ Forall (fun sb => getattr (sb_param_name sb) <$> snd r !! sb_solver_params sb
                       = Some None) (spinboxes g).
Proof.
  cbv zeta. unfold update_value. rewrite Hsb, Hp, Hnone.
  unfold _disable, setChecked. rewrite Hchecked. simpl.
  pose proof (setEnabled_all_enabled false (spinboxes g) h) as Hdis.
  pose proof (setEnabled_all_false_writes_None (spinboxes g) h
                (Henabled true Hchecked) Hconnected) as Hnones.
  destruct (setEnabled_all false (spinboxes g) h) as [sbs h']; simpl in *.
  auto.
Qed.

End ParamGroupMore.

(** A click on a fresh "Distance Cost" group keeps its spin boxes in step
    with its check box. *)
Lemma enabled_as_checked_preserved_witness :
  MotileWidget.enabled_as_checked
    (fst (MotileWidget.click_enable_control Samples.distance_group
            [Samples.default_params])).
Proof.
  apply (enabled_as_checked_preserved Samples.clamp Samples.distance_group
           [Samples.default_params]).
  intros checked H. inversion H; subst. repeat constructor.
Defined.

(** The "Distance Cost" group over the default parameters. *)
Lemma feature_cost_group_toggle_witness :
  getattr Param.distance_offset
    <$> snd (MotileWidget.click_enable_control Samples.distance_group
               [Samples.default_params]) !! 0%nat
  = Some None.
Proof.
  apply (feature_cost_group_toggle Param.distance_weight Param.distance_offset
           0%nat 1 (-20) [Samples.default_params] Samples.default_params).
  - reflexivity.
  - discriminate.
Defined.

(** The "Iou Cost" group updated from parameters without an iou weight:
    the widget's iou offset becomes [None] too. *)
Lemma update_value_None_switches_group_off_witness :
  Forall (fun sb => getattr (MotileWidget.sb_param_name sb)
                      <$> snd (MotileWidget.update_value Samples.clamp 0 1
                                 Samples.iou_group
                                 Samples.params_and_params_without_iou)
                          !! MotileWidget.sb_solver_params sb
                    = Some None)
    (MotileWidget.spinboxes Samples.iou_group).
Proof.
  apply (update_value_None_switches_group_off Samples.clamp 0 1
           Samples.iou_group Samples.params_and_params_without_iou
           (MotileWidget.mkParamSpinBox Param.iou_weight 0%nat (-10000) 10000 true 5)
           Samples.params_without_iou).
  - reflexivity.
  - reflexivity.
  - reflexivity.
  - reflexivity.
  - intros checked H. inversion H; subst. repeat constructor.
  - repeat constructor; simpl; eauto.
Defined.

(** ** More on loading runs *)

Section LoadMore.
Import Qt MotileWidget.
Variable qt_bound : Q -> Q -> Q -> Q.
Variable run_directory : string -> SolverParams -> string.

Lemma update_groups_bound_elsewhere r params gs (h : heap) :
  Forall (fun g => bound_elsewhere r (spinboxes g)) gs ->
  Forall (fun g => bound_elsewhere r (spinboxes g))
    (fst (update_groups qt_bound params gs h)).
Proof.
  intros H. revert h.
  induction H as [| g rest Hg Hrest IH]; intros h; simpl; [constructor |].
  destruct (update_values_from_frame qt_bound r (length (spinboxes g)) 0
              params g h Hg) as [_ Hb].
  destruct (update_values_from qt_bound 0 (length (spinboxes g)) params g h)
    as [g' h1]; simpl in *.
  specialize (IH h1).
  destruct (update_groups qt_bound params rest h1) as [rest' h2]; simpl in *.
  constructor; assumption.
Qed.

(** X6.  After a run has been loaded, the widget's [solver_params] is the
    loaded object, but every control still writes to the object it was
    connected to when the widget was built.  No click on an enable control
    and no edit of a spin box changes the parameters the widget now holds
    (those [_generate_tracks] hands to the solver). *)
Theorem controls_miss_the_loaded_params
  (w : MotileWidget) (h : heap) (base_path : gmap string StoredRun)
  (Hselected : currentText (load_tracks_selection w) <> "None")
  (Hbound : Forall (fun g => Forall (fun sb => (sb_solver_params sb < length h)%nat)
                                (spinboxes g))
              (param_groups w)) :
  match _load_run qt_bound w h base_path with
  | Raise _ => True
  | Ok (w', h') =>
      solver_params w' = length h
      /\ forall g, In g (param_groups w') ->
           snd (click_enable_control g h') !! solver_params w'
             = h' !! solver_params w'
           /\ forall i v,
               snd (edit_value qt_bound i v g h') !! solver_params w'
                 = h' !! solver_params w'
  end.
Proof.
  unfold _load_run.
  apply String.eqb_neq in Hselected. rewrite Hselected.
  unfold Run_load.
  destruct (base_path !! currentText (load_tracks_selection w)) as [stored |];
    [| exact I].
  simpl. unfold emit_update_signal; simpl.
  assert (Hb : Forall (fun g => bound_elsewhere (length h) (spinboxes g))
                 (param_groups w)).
  { eapply Forall_impl; [exact Hbound |].
    intros g Hg. unfold bound_elsewhere.
    eapply Forall_impl; [exact Hg |]. simpl. intros sb Hlt. lia. }
  pose proof (update_groups_bound_elsewhere (length h) (length h)
                (param_groups w) (h ++ [stored_params stored]) Hb) as Hb'.
  destruct (update_groups qt_bound (length h) (param_groups w)
              (h ++ [stored_params stored])) as [gs h']; simpl in *.
  split; [reflexivity |].
  intros g Hin. rewrite Forall_forall in Hb'.
  apply controls_write_to_connected_object_only.
  apply Hb'. apply list_elem_of_In. exact Hin.
Qed.

Lemma fold_addItem_spec (texts : list string) (box : QComboBox) :
  let box' := List.fold_left (fun box run => addItem run box) texts box in
  items box' = items box ++ texts
  /\ (currentIndex box = None ->
      currentIndex box' = match texts with [] => None | _ => Some 0%nat end).
Proof.
  cbv zeta. revert box. induction texts as [| t rest IH]; intros box; simpl.
  - rewrite app_nil_r. auto.
  - destruct (IH (addItem t box)) as [Hi Hc]. rewrite Hi. simpl.
    rewrite <- app_assoc. split; [reflexivity |].
    intros Hnone.
    assert (Hcur : currentIndex (addItem t box) = Some 0%nat)
      by (unfold addItem; simpl; rewrite Hnone; reflexivity).
    clear Hi Hc IH. revert Hcur. generalize (addItem t box) as b.
    induction rest as [| t' rest' IHr]; intros b Hb; simpl; [exact Hb |].
    apply IHr. unfold addItem; simpl. rewrite Hb. reflexivity.
Qed.

(** X7.  The load selection lists the stems of the entries found under
    the base path when the widget was built, or the single entry "None"
    when there was none.  It is not filled again: in a widget built over an
    empty base path, loading does nothing, whatever has been saved since. *)
Theorem load_does_nothing_over_an_empty_base_path
  (w : MotileWidget)
  (Hbuilt : load_tracks_selection w = load_tracks_box []) :
  (forall entries,
      items (load_tracks_box entries)
      = match _list_runs entries with [] => ["None"] | runs => runs end)
  /\ (forall h base_path, _load_run qt_bound w h base_path = Ok (w, h))
  /\ (forall saved_from h0 h base_path,
        _load_run qt_bound w h
          (_save_run run_directory saved_from h0 base_path) = Ok (w, h)).
Proof.
  split; [| split].
  - intros entries. unfold load_tracks_box, count.
    destruct (fold_addItem_spec (_list_runs entries) new_QComboBox) as [Hi _].
    cbv zeta in Hi. change (items new_QComboBox ++ _list_runs entries)
      with (_list_runs entries) in Hi.
    generalize dependent (List.fold_left (fun box run => addItem run box)
                            (_list_runs entries) new_QComboBox).
    intros box Hi. rewrite Hi.
    destruct (_list_runs entries) as [| r rs]; simpl; [| exact Hi].
    rewrite Hi. reflexivity.
  - intros h base_path. unfold _load_run. rewrite Hbuilt. reflexivity.
  - intros saved_from h0 h base_path. unfold _load_run. rewrite Hbuilt.
    reflexivity.
Qed.

End LoadMore.

(** Loading "tracks" into a fresh widget: clicks on the "Appear Cost" box
    no longer reach the loaded parameters. *)
Lemma controls_miss_the_loaded_params_witness :
  match MotileWidget._load_run Samples.clamp Samples.widget_loading_tracks
          [Samples.default_params] Samples.base_path_with_tracks with
  | Raise _ => False
  | Ok (w', h') =>
      MotileWidget.solver_params w' = 1%nat
      /\ forall g, In g (MotileWidget.param_groups w') ->
           snd (MotileWidget.click_enable_control g h')
             !! MotileWidget.solver_params w'
           = h' !! MotileWidget.solver_params w'
  end.
Proof.
  pose proof (controls_miss_the_loaded_params Samples.clamp
                Samples.widget_loading_tracks [Samples.default_params]
                Samples.base_path_with_tracks) as H.
  destruct (MotileWidget._load_run Samples.clamp Samples.widget_loading_tracks
              [Samples.default_params] Samples.base_path_with_tracks)
    as [[w' h'] | e] eqn:E.
  - destruct H as [Hnew Hctl].
    + discriminate.
    + simpl. repeat constructor.
    + split; [exact Hnew |]. intros g Hin. apply (Hctl g Hin).
  - vm_compute in E. discriminate E.
Defined.

(** A widget built over an empty base path, after a save. *)
Lemma load_does_nothing_over_an_empty_base_path_witness :
  MotileWidget._load_run Samples.clamp Samples.widget_over_empty_base_path
    [Samples.default_params]
    (MotileWidget._save_run Samples.directory_by_name
       Samples.widget_over_empty_base_path [Samples.default_params] ∅)
  = Ok (Samples.widget_over_empty_base_path, [Samples.default_params]).
Proof.
  apply (load_does_nothing_over_an_empty_base_path Samples.clamp
           Samples.directory_by_name Samples.widget_over_empty_base_path).
  reflexivity.
Defined.

(** ** The names [_list_runs] shows *)

Section ListRunsFacts.
Import MotileWidget.

Lemma rfind_dot_dotless (name : string) :
  Pathlib.dotless name = true -> Pathlib.rfind_dot name = None.
Proof.
  induction name as [| c rest IH]; simpl; [reflexivity |].
  intros H. apply andb_true_iff in H as [Hc Hrest].
  rewrite (IH Hrest). apply negb_true_iff in Hc. rewrite Hc. reflexivity.
Qed.

Lemma rfind_dot_last (a b : string) :
  Pathlib.dotless b = true ->
  Pathlib.rfind_dot (a ++ String "." b) = Some (String.length a).
Proof.
  intros Hb. induction a as [| c a IH]; simpl.
  - rewrite (rfind_dot_dotless b Hb). reflexivity.
  - rewrite IH. reflexivity.
Qed.

Lemma length_append_dot (a b : string) :
  String.length (a ++ String "." b) = (String.length a + S (String.length b))%nat.
Proof. induction a as [| c a IH]; simpl; [reflexivity | rewrite IH; reflexivity]. Qed.

Lemma substring_prefix (a rest : string) :
  String.substring 0 (String.length a) (a ++ rest) = a.
Proof.
  induction a as [| c a IH]; simpl.
  - destruct rest; reflexivity.
  - rewrite IH. reflexivity.
Qed.

Lemma stem_dotless (name : string) :
  Pathlib.dotless name = true -> Pathlib.stem name = name.
Proof.
  intros H. unfold Pathlib.stem. rewrite (rfind_dot_dotless name H). reflexivity.
Qed.

Lemma stem_suffix (a b : string) :
  a <> "" -> b <> "" -> Pathlib.dotless b = true ->
  Pathlib.stem (a ++ String "." b) = a.
Proof.
  intros Ha Hb Hdot. unfold Pathlib.stem.
  rewrite (rfind_dot_last a b Hdot), length_append_dot.
  assert (Hla : (0 < String.length a)%nat) by (destruct a; simpl; [congruence | lia]).
  assert (Hlb : (0 < String.length b)%nat) by (destruct b; simpl; [congruence | lia]).
  destruct (Nat.ltb_spec 0 (String.length a)) as [_ | Hge]; [| lia].
  destruct (Nat.ltb_spec (String.length a)
              (String.length a + S (String.length b) - 1)) as [_ | Hge]; [| lia].
  simpl. apply substring_prefix.
Qed.

(** X8.  [_list_runs] shows an entry of the base path under its stem.  An
    entry whose name holds no dot is shown under its own name; an entry
    [a.b] (with [a] and [b] not empty and no dot in [b]) is shown as [a],
    so a run directory with a dot in its name is listed under a name that
    is not the directory's. *)
Theorem list_runs_shows_stems (entries : list string) (a b : string) :
  length (_list_runs entries) = length entries
  /\ (Forall (fun name => Pathlib.dotless name = true) entries ->
      _list_runs entries = entries)
  /\ (a <> "" -> b <> "" -> Pathlib.dotless b = true ->
      _list_runs ((a ++ String "." b)%string :: entries)
        = a :: _list_runs entries
      /\ a <> (a ++ String "." b)%string).
Proof.
  unfold _list_runs. split; [apply length_map |]. split.
  - intros H. induction H as [| name rest Hname Hrest IH]; simpl; [reflexivity |].
    rewrite (stem_dotless name Hname), IH. reflexivity.
  - intros Ha Hb Hdot. simpl. rewrite (stem_suffix a b Ha Hb Hdot).
    split; [reflexivity |].
    intros Heq. apply (f_equal String.length) in Heq.
    rewrite length_append_dot in Heq. lia.
Qed.

End ListRunsFacts.

(** Two run directories, one with a dot in its name. *)
Lemma list_runs_shows_stems_witness :
  MotileWidget._list_runs ["tracks.v2"; "tracks"] = ["tracks"; "tracks"].
Proof.
  pose proof (list_runs_shows_stems ["tracks"] "tracks" "v2") as (_ & Hplain & Hdot).
  destruct Hdot as [Hlist _]; [discriminate | discriminate | reflexivity |].
  change ("tracks" ++ String "." "v2")%string with "tracks.v2" in Hlist.
  rewrite Hlist. rewrite Hplain by (repeat constructor). reflexivity.
Defined.

(** ** More on the run editor *)

Section RunEditorMore.
Import Qt Napari RunEditor.

Lemma labels_names_find (layers : list Layer) :
  match List.find isinstance_Labels layers with
  | Some layer =>
      In layer layers /\ exists rest, labels_names layers = name layer :: rest
  | None => labels_names layers = []
  end.
Proof.
  unfold labels_names. induction layers as [| l rest IH]; simpl; [reflexivity |].
  destruct (isinstance_Labels l) eqn:E; simpl.
  - split; [auto | eexists; reflexivity].
  - destruct (List.find isinstance_Labels rest) as [layer |].
    + destruct IH as [Hin Hrest]. auto.
    + exact IH.
Qed.

Lemma default_selection (layers : list Layer) :
  NoDup (List.map name layers) ->
  (let text := currentText (MotileWidget._ui_select_labels_layer layers) in
   if String.eqb text "None" then Ok None
   else match getitem layers text with
        | Ok layer => Ok (Some layer)
        | Raise e => Raise e
        end)
  = match List.find isinstance_Labels layers with
    | None => Ok None
    | Some layer =>
        if String.eqb (name layer) "None" then Ok None else Ok (Some layer)
    end.
Proof.
  intros Hnd. cbv zeta.
  destruct (select_box_spec layers) as [Hitems Hcur].
  unfold currentText. rewrite Hcur, Hitems.
  pose proof (labels_names_find layers) as Hfind.
  destruct (List.find isinstance_Labels layers) as [layer |].
  - destruct Hfind as [Hin [rest ->]]. simpl.
    destruct (String.eqb (name layer) "None"); [reflexivity |].
    rewrite (getitem_unique layers layer Hnd Hin). reflexivity.
  - rewrite Hfind. reflexivity.
Qed.

(** X9.  In a viewer whose layers have different names, a selector that
    has just been filled selects the first [Labels] layer: that is the
    layer [get_labels_layer] returns, both in the run editor after
    [update_labels_layers] and in the widget as built.  The one exception
    is a [Labels] layer called "None", which reads as no layer. *)
Theorem first_labels_layer_is_selected (layers : list Layer)
  (ed : RunEditor) (w : MotileWidget.MotileWidget)
  (Hnames : NoDup (List.map name layers))
  (Hviewer : MotileWidget.viewer_layers w = layers)
  (Hbox : MotileWidget.layer_selection_box w
          = MotileWidget._ui_select_labels_layer layers) :
  let selected :=
    match List.find isinstance_Labels layers with
    | None => Ok None
    | Some layer =>
        if String.eqb (name layer) "None" then Ok None else Ok (Some layer)
    end in
  get_labels_layer (update_labels_layers layers ed) = selected
  /\ MotileWidget.get_labels_layer w = selected.
Proof.
  cbv zeta. split.
  - destruct (update_labels_layers_spec layers ed) as [Hl Hb].
    unfold get_labels_layer. rewrite Hl, Hb.
    apply (default_selection layers Hnames).
  - unfold MotileWidget.get_labels_layer. rewrite Hviewer, Hbox.
    apply (default_selection layers Hnames).
Qed.

Lemma edit_params_length (ed : RunEditor) edits (h : heap) :
  length (edit_params ed edits h) = length h.
Proof.
  revert h. induction edits as [| [n v] rest IH]; intros h; simpl; [reflexivity |].
  rewrite IH. apply store_attr_length.
Qed.

Lemma edit_params_own (ed : RunEditor) edits (h : heap) p :
  h !! solver_params_widget ed = Some p ->
  edit_params ed edits h !! solver_params_widget ed
    = Some (apply_edits edits p).
Proof.
  revert h p. induction edits as [| [n v] rest IH]; intros h p Hp; simpl;
    [exact Hp |].
  apply IH. apply store_attr_lookup_eq. exact Hp.
Qed.

(** X10.  Runs never share parameters.  If the parameter objects of the
    runs emitted so far are pairwise different objects, none of them the
    editor's own, this stays so after any edits in the editor and after
    another [emit_run]; and [emit_run] changes no object that existed
    before it. *)
Theorem runs_separate_preserved (ed : RunEditor) (h : heap)
  (Hsep : runs_separate ed h) :
  (forall edits, runs_separate ed (edit_params ed edits h))
  /\ (forall ed' h', emit_run ed h = (Ok ed', h') ->
        runs_separate ed' h'
        /\ forall r p, h !! r = Some p -> h' !! r = Some p).
Proof.
  destruct Hsep as (Hed & Hnd & Hall). split.
  - intros edits. unfold runs_separate. rewrite edit_params_length. auto.
  - intros ed' h'. unfold emit_run, get_run.
    destruct (get_labels_layer ed) as [[layer |] | e].
    + destruct (expand_dims (data layer) 1) as [input_seg | e].
      * unfold copy.
        destruct (h !! solver_params_widget ed) as [p |] eqn:Hp.
        -- simpl. intros H. inversion H; subst; clear H.
           split.
           ++ unfold runs_separate; simpl. rewrite length_app; simpl.
              split; [lia |]. split.
              ** rewrite map_app. simpl. apply NoDup_app. split; [exact Hnd |].
                 split; [| apply NoDup_singleton].
                 intros r Hr Hr'. apply list_elem_of_In in Hr.
                 apply in_map_iff in Hr as (run & <- & Hrun).
                 rewrite Forall_forall in Hall.
                 apply list_elem_of_In in Hrun.
                 destruct (Hall run Hrun) as [Hlt _].
                 apply list_elem_of_singleton in Hr'. lia.
              ** apply Forall_app. split.
                 --- eapply Forall_impl; [exact Hall |].
                     simpl. intros run [Hlt Hne]. split; [lia | exact Hne].
                 --- constructor; [| constructor]. simpl. lia.
           ++ intros r q Hq. apply lookup_app_l_Some. exact Hq.
        -- simpl. discriminate.
      * simpl. discriminate.
    + simpl. intros H. inversion H; subst. split.
      * unfold runs_separate. auto.
      * auto.
    + simpl. discriminate.
Qed.

Lemma get_run_selected (ed : RunEditor) (h : heap) (p : SolverParams)
  (layer : Layer) :
  h !! solver_params_widget ed = Some p ->
  get_labels_layer ed = Ok (Some layer) ->
  (1 <= length (shape (data layer)))%nat ->
  get_run ed h
  = (Ok (Some (mkMotileRun (get_run_name ed) (length h)
                 (mk_ndarray (take 1 (shape (data layer))
                                ++ 1%nat :: drop 1 (shape (data layer)))
                    (flat (data layer))))),
     h ++ [p]).
Proof.
  intros Hparams Hlayer Hndim. unfold get_run. rewrite Hlayer.
  unfold expand_dims.
  destruct (Nat.leb_spec 1 (length (shape (data layer)))) as [_ | Hlt]; [| lia].
  unfold copy. rewrite Hparams. reflexivity.
Qed.

(** X11.  A run made before an edit keeps the old values and a run made
    after it has the new ones: with a labels layer selected, [get_run],
    then edits in the editor, then [get_run] again give two runs with
    different parameter objects, the first holding the parameters as they
    were at its creation and the second the edited ones. *)
Theorem runs_before_and_after_edits (ed : RunEditor) (h : heap)
  (p : SolverParams) (layer : Layer) (edits : list (Param.name * value))
  (Hparams : h !! solver_params_widget ed = Some p)
  (Hlayer : get_labels_layer ed = Ok (Some layer))
  (Hndim : (1 <= length (shape (data layer)))%nat) :
  exists run1 h1 run2 h2,
    get_run ed h = (Ok (Some run1), h1)
    /\ get_run ed (edit_params ed edits h1) = (Ok (Some run2), h2)
    /\ solver_params run1 <> solver_params run2
    /\ h2 !! solver_params run1 = Some p
    /\ h2 !! solver_params run2 = Some (apply_edits edits p)
    /\ input_segmentation run1 = input_segmentation run2.
Proof.
  assert (Hlen : (solver_params_widget ed < length h)%nat)
    by (apply lookup_lt_Some in Hparams; exact Hparams).
  assert (Hown : (h ++ [p]) !! solver_params_widget ed = Some p)
    by (apply lookup_app_l_Some; exact Hparams).
  pose proof (edit_params_own ed edits (h ++ [p]) p Hown) as Hedited.
  pose proof (edit_params_length ed edits (h ++ [p])) as Hlen2.
  rewrite length_app in Hlen2. simpl in Hlen2.
  eexists _, _, _, _.
  split; [apply (get_run_selected ed h p layer Hparams Hlayer Hndim) |].
  split; [apply (get_run_selected ed _ _ layer Hedited Hlayer Hndim) |].
  simpl. rewrite Hlen2.
  split; [lia |]. split; [| split; [| reflexivity]].
  - rewrite lookup_app_l by lia.
    rewrite edit_params_frame by lia.
    rewrite lookup_app_r by lia.
    replace (length h - length h)%nat with 0%nat by lia. reflexivity.
  - rewrite lookup_app_r by lia. rewrite Hlen2.
    replace (length h + 1 - (length h + 1))%nat with 0%nat by lia. reflexivity.
Qed.

(** X12.  [get_run] changes no object of the store.  It adds one object,
    the copy, exactly when it returns a run; when it returns [None] or
    fails (no layer of the selected name, or layer data without a first
    axis to insert after) the store is left as it was. *)
Theorem get_run_adds_one_object_or_none (ed : RunEditor) (h : heap) :
  (forall r p, h !! r = Some p -> snd (get_run ed h) !! r = Some p)
  /\ match fst (get_run ed h) with
     | Ok (Some run) =>
         solver_params run = length h
         /\ length (snd (get_run ed h)) = S (length h)
     | _ => snd (get_run ed h) = h
     end
  /\ (forall layer, get_labels_layer ed = Ok (Some layer) ->
      shape (data layer) = [] ->
      get_run ed h = (Raise AxisError, h)).
Proof.
  unfold get_run. split; [| split].
  - intros r p Hp.
    destruct (get_labels_layer ed) as [[layer |] | e]; simpl; try exact Hp.
    destruct (expand_dims (data layer) 1); simpl; try exact Hp.
    unfold copy. destruct (h !! solver_params_widget ed); simpl; try exact Hp.
    apply lookup_app_l_Some. exact Hp.
  - destruct (get_labels_layer ed) as [[layer |] | e]; simpl; try reflexivity.
    destruct (expand_dims (data layer) 1); simpl; try reflexivity.
    unfold copy. destruct (h !! solver_params_widget ed); simpl; try reflexivity.
    rewrite length_app. simpl. split; [reflexivity | lia].
  - intros layer Hlayer Hshape. rewrite Hlayer. unfold expand_dims.
    rewrite Hshape. reflexivity.
Qed.

End RunEditorMore.

(** The first labels layer of a viewer with an image and labels. *)
Lemma first_labels_layer_is_selected_witness :
  RunEditor.get_labels_layer
    (RunEditor.update_labels_layers [Samples.image_layer; Samples.labels_layer]
       Samples.run_editor_without_labels)
  = Ok (Some Samples.labels_layer)
  /\ MotileWidget.get_labels_layer Samples.widget_with_image_and_labels
     = Ok (Some Samples.labels_layer).
Proof.
  apply (first_labels_layer_is_selected
           [Samples.image_layer; Samples.labels_layer]
           Samples.run_editor_without_labels
           Samples.widget_with_image_and_labels).
  - apply (bool_decide_unpack _). vm_compute. exact I.
  - reflexivity.
  - reflexivity.
Defined.

(** The first run of an editor. *)
Lemma runs_separate_preserved_witness :
  exists ed' h',
    RunEditor.emit_run Samples.run_editor_with_labels [Samples.default_params]
      = (Ok ed', h')
    /\ length (RunEditor.create_run ed') = 1%nat
    /\ RunEditor.runs_separate ed' h'.
Proof.
  eexists _, _. split; [reflexivity |]. split; [reflexivity |].
  apply (runs_separate_preserved Samples.run_editor_with_labels
           [Samples.default_params]).
  - unfold RunEditor.runs_separate. simpl. split; [lia |].
    split; constructor.
  - reflexivity.
Defined.

(** A run made before and a run made after two edits. *)
Lemma runs_before_and_after_edits_witness :
  exists run1 h1 run2 h2,
    RunEditor.get_run Samples.run_editor_with_labels [Samples.default_params]
      = (Ok (Some run1), h1)
    /\ RunEditor.get_run Samples.run_editor_with_labels
         (RunEditor.edit_params Samples.run_editor_with_labels
            Samples.two_edits h1)
       = (Ok (Some run2), h2)
    /\ h2 !! RunEditor.solver_params run1 = Some Samples.default_params
    /\ h2 !! RunEditor.solver_params run2
       = Some (RunEditor.apply_edits Samples.two_edits Samples.default_params).
Proof.
  destruct (runs_before_and_after_edits Samples.run_editor_with_labels
              [Samples.default_params] Samples.default_params
              Samples.labels_layer Samples.two_edits)
    as (run1 & h1 & run2 & h2 & H1 & H2 & _ & Hp1 & Hp2 & _).
  - reflexivity.
  - reflexivity.
  - simpl. lia.
  - exists run1, h1, run2, h2. auto.
Defined.

(** ** More on the optional rows of [params_editor.py] *)

Section OptionalRowMore.
Import ParamsEditor.
Context {Params V : Type}.
Variable getattribute : Params -> option V.
Variable setattribute : option V -> Params -> Params.
(** The slot writes the field the row reads. *)
Hypothesis get_set : forall v m, getattribute (setattribute v m) = v.

(** X14.  A click on the label of an optional row stores [None] in the
    editor's parameters when it unchecks the row and the value the control
    shows when it checks it; the value control is enabled exactly when the
    row is checked afterwards; a second click undoes the first. *)
Theorem click_label_stores_None_or_shown_value
  (row : OptionalEditableParam) (solver_params : Params) :
  let once := click_label setattribute row solver_params in
  let twice := click_label setattribute (fst once) (snd once) in
  param_label_checked (fst once) = negb (param_label_checked row)
  /\ param_value_enabled (fst once) = negb (param_label_checked row)
  /\ param_value_shown (fst once) = param_value_shown row
  /\ getattribute (snd once)
     = (if param_label_checked row then None else Some (param_value_shown row))
  /\ param_label_checked (fst twice) = param_label_checked row
  /\ param_value_enabled (fst twice) = param_label_checked row
  /\ getattribute (snd twice)
     = (if param_label_checked row then Some (param_value_shown row) else None).
Proof.
  cbv zeta. unfold click_label, setChecked, toggle_enable.
  destruct (param_label_checked row) eqn:E; simpl;
    rewrite ?get_set; repeat split.
Qed.

End OptionalRowMore.

(** The "Appear Cost" row of the params editor, checked and showing 30,
    over the default parameters: a click stores [None]. *)
Lemma click_label_stores_None_or_shown_value_witness :
  getattr Param.appear_cost
    (snd (ParamsEditor.click_label (setattr Param.appear_cost)
            (ParamsEditor.mkOptionalEditableParam true true 30%Q)
            Samples.default_params))
  = None.
Proof.
  apply (click_label_stores_None_or_shown_value
           (getattr Param.appear_cost) (setattr Param.appear_cost)
           (getattr_setattr Param.appear_cost)
           (ParamsEditor.mkOptionalEditableParam true true 30%Q)
           Samples.default_params).
Defined.

(** ** Saving, then loading *)

Section SaveThenLoad.
Import Qt MotileWidget.
Variable qt_bound : Q -> Q -> Q -> Q.
Variable run_directory : string -> SolverParams -> string.

Lemma load_tracks_box_selected (entries : list string) (i : nat) (d : string) :
  entries !! i = Some d ->
  currentText (setCurrentIndex i (load_tracks_box entries)) = Pathlib.stem d.
Proof.
  intros Hd.
  assert (Hitems : items (load_tracks_box entries) = _list_runs entries).
  { unfold load_tracks_box, count.
    destruct (fold_addItem_spec (_list_runs entries) new_QComboBox) as [Hi _].
    cbv zeta in Hi. change (items new_QComboBox ++ _list_runs entries)
      with (_list_runs entries) in Hi.
    generalize dependent (List.fold_left (fun box run => addItem run box)
                            (_list_runs entries) new_QComboBox).
    intros box Hi. rewrite Hi.
    destruct entries as [| e rest]; [discriminate Hd |]. simpl. exact Hi. }
  assert (Hlt : (i < length entries)%nat) by (apply lookup_lt_Some in Hd; exact Hd).
  unfold setCurrentIndex, count. rewrite Hitems. unfold _list_runs.
  rewrite length_map.
  destruct (Nat.ltb_spec i (length entries)) as [_ | Hge]; [| lia].
  unfold currentText. cbn [currentIndex items].
  rewrite list_lookup_fmap, Hd. reflexivity.
Qed.


End SaveThenLoad.


